(** * GongClient (src/gong-client.ts): a shallow embedding

    The client is one class with a private [authHeader] field, a private
    [request] primitive built on [fetch], and eleven public methods that
    build an endpoint and a body, call [request] and reshape the decoded
    envelope.

    Modelling choices.
    - A JavaScript string is its sequence of UTF-16 code units ([list N]).
    - A JavaScript value is a tree ([jsval]); numbers are restricted to
      integers, which is all the client ever produces itself (numbers coming
      from upstream are passed through or tested for truthiness only).
    - [async]/[await] is sequential here: a method is a computation over the
      client object and the network, which either returns or throws.
    - The network is a script of pending [fetch] outcomes together with the
      log of the requests sent so far. *)

From Stdlib Require Import List ZArith NArith Lia Bool String Ascii DecimalString.
Import ListNotations.

Set Implicit Arguments.

(** ** Strings *)

Definition jsstring := list N.

(** An ASCII literal of the source as a sequence of code units. *)
Definition lit (s : string) : jsstring :=
  map N_of_ascii (list_ascii_of_string s).

Fixpoint jsstring_eqb (a b : jsstring) : bool :=
  match a, b with
  | [], [] => true
  | x :: a', y :: b' => N.eqb x y && jsstring_eqb a' b'
  | _, _ => false
  end.

(** [Number.prototype.toString] on a non-negative integer. *)
Definition N_toString (n : N) : jsstring :=
  lit (NilZero.string_of_uint (N.to_uint n)).

(** The same on a signed integer (as JavaScript writes it below 10^21,
    where it switches to exponent notation; the client itself never
    serializes a number). *)
Definition Z_toString (z : Z) : jsstring :=
  lit (NilZero.string_of_int (Z.to_int z)).

(** [pre ++ s ++ post]: [s] occurs verbatim inside the string. *)
Definition occurs_in (s t : jsstring) : Prop :=
  exists pre post, t = pre ++ s ++ post.

Fixpoint prefix_b (s t : jsstring) : bool :=
  match s, t with
  | [], _ => true
  | x :: s', y :: t' => N.eqb x y && prefix_b s' t'
  | _ :: _, [] => false
  end.

(** [String.prototype.includes]. *)
Fixpoint includes (t s : jsstring) : bool :=
  prefix_b s t ||
  match t with
  | [] => false
  | _ :: t' => includes t' s
  end.

(** ** UTF-8, as produced by [Buffer.from(string)] and by the URL encoder.
    A surrogate pair becomes one four-byte sequence; a surrogate without its
    partner becomes U+FFFD. *)

Definition is_high (u : N) : bool := (0xD800 <=? u)%N && (u <=? 0xDBFF)%N.
Definition is_low (u : N) : bool := (0xDC00 <=? u)%N && (u <=? 0xDFFF)%N.

Definition utf8_of_code_point (cp : N) : list N :=
  if (cp <? 0x80)%N then [cp]
  else if (cp <? 0x800)%N then
    [N.lor 0xC0 (N.shiftr cp 6); N.lor 0x80 (N.land cp 0x3F)]
  else if (cp <? 0x10000)%N then
    [N.lor 0xE0 (N.shiftr cp 12);
     N.lor 0x80 (N.land (N.shiftr cp 6) 0x3F);
     N.lor 0x80 (N.land cp 0x3F)]
  else
    [N.lor 0xF0 (N.shiftr cp 18);
     N.lor 0x80 (N.land (N.shiftr cp 12) 0x3F);
     N.lor 0x80 (N.land (N.shiftr cp 6) 0x3F);
     N.lor 0x80 (N.land cp 0x3F)].

Definition replacement_character : N := 0xFFFD%N.

Fixpoint utf8_encode (s : jsstring) : list N :=
  match s with
  | [] => []
  | u :: t =>
      if is_high u then
        match t with
        | v :: r =>
            if is_low v then
              utf8_of_code_point
                (0x10000 + N.shiftl (u - 0xD800) 10 + (v - 0xDC00))%N
                ++ utf8_encode r
            else utf8_of_code_point replacement_character ++ utf8_encode t
        | [] => utf8_of_code_point replacement_character
        end
      else if is_low u then
        utf8_of_code_point replacement_character ++ utf8_encode t
      else utf8_of_code_point u ++ utf8_encode t
  end.

(** ** Base64, as produced by [buffer.toString("base64")] *)

Definition base64_alphabet : jsstring :=
  lit "ABCDEFGHIJKLMNOPQRSTUVWXYZabcdefghijklmnopqrstuvwxyz0123456789+/".

Definition base64_digit (i : N) : N := nth (N.to_nat i) base64_alphabet 0%N.

Definition base64_pad : N := 61%N.

Fixpoint base64 (bytes : list N) : jsstring :=
  match bytes with
  | [] => []
  | [a] =>
      [base64_digit (N.shiftr a 2);
       base64_digit (N.shiftl (N.land a 3) 4);
       base64_pad; base64_pad]
  | [a; b] =>
      [base64_digit (N.shiftr a 2);
       base64_digit (N.lor (N.shiftl (N.land a 3) 4) (N.shiftr b 4));
       base64_digit (N.shiftl (N.land b 15) 2);
       base64_pad]
  | a :: b :: c :: rest =>
      [base64_digit (N.shiftr a 2);
       base64_digit (N.lor (N.shiftl (N.land a 3) 4) (N.shiftr b 4));
       base64_digit (N.lor (N.shiftl (N.land b 15) 2) (N.shiftr c 6));
       base64_digit (N.land c 63)]
      ++ base64 rest
  end.

(** ** [URLSearchParams]: the application/x-www-form-urlencoded serializer *)

Definition hex_upper : jsstring := lit "0123456789ABCDEF".
Definition hex_lower : jsstring := lit "0123456789abcdef".
Definition hex_digit (alphabet : jsstring) (i : N) : N :=
  nth (N.to_nat i) alphabet 0%N.

Definition is_alnum (b : N) : bool :=
  ((0x30 <=? b)%N && (b <=? 0x39)%N)
  || ((0x41 <=? b)%N && (b <=? 0x5A)%N)
  || ((0x61 <=? b)%N && (b <=? 0x7A)%N).

(** Bytes left as they are: alphanumerics and [*], [-], [.], [_]. *)
Definition form_unreserved (b : N) : bool :=
  is_alnum b || N.eqb b 0x2A || N.eqb b 0x2D || N.eqb b 0x2E || N.eqb b 0x5F.

Definition form_encode_byte (b : N) : jsstring :=
  if form_unreserved b then [b]
  else if N.eqb b 0x20 then [0x2B%N]
  else [0x25%N; hex_digit hex_upper (N.shiftr b 4);
        hex_digit hex_upper (N.land b 15)].

Definition form_encode (s : jsstring) : jsstring :=
  flat_map form_encode_byte (utf8_encode s).

Definition URLSearchParams := list (jsstring * jsstring).

Definition join (sep : jsstring) (parts : list jsstring) : jsstring :=
  match parts with
  | [] => []
  | p :: ps => p ++ flat_map (fun q => sep ++ q) ps
  end.

Definition form_pair (kv : jsstring * jsstring) : jsstring :=
  form_encode (fst kv) ++ lit "=" ++ form_encode (snd kv).

(** [queryParams.toString()] *)
Definition URLSearchParams_toString (q : URLSearchParams) : jsstring :=
  join (lit "&") (map form_pair q).

(** [queryParams.append(name, value)] *)
Definition URLSearchParams_append (q : URLSearchParams) (name value : jsstring)
  : URLSearchParams :=
  q ++ [(name, value)].

(** ** JavaScript values *)

#[warnings="-register-all"] Inductive jsval : Type :=
| JUndefined
| JNull
| JBool (b : bool)
| JNum (z : Z)
| JStr (s : jsstring)
| JArr (items : list jsval)
| JObj (props : list (jsstring * jsval)).

(** An optional property of a parameter object, as the method body sees it. *)
Definition opt_str (o : option jsstring) : jsval :=
  match o with
  | Some s => JStr s
  | None => JUndefined
  end.

Definition str_array (l : list jsstring) : jsval := JArr (map JStr l).

Definition opt_str_array (o : option (list jsstring)) : jsval :=
  match o with
  | Some l => str_array l
  | None => JUndefined
  end.

(** [ToBoolean]: what [if (v)], [v || w] and [v ? a : b] test. *)
Definition truthy (v : jsval) : bool :=
  match v with
  | JUndefined | JNull => false
  | JBool b => b
  | JNum z => negb (Z.eqb z 0)
  | JStr s => match s with [] => false | _ :: _ => true end
  | JArr _ | JObj _ => true
  end.

Definition nullish (v : jsval) : bool :=
  match v with
  | JUndefined | JNull => true
  | _ => false
  end.

(** [a || b] *)
Definition js_or (a b : jsval) : jsval := if truthy a then a else b.

Fixpoint own_property (props : list (jsstring * jsval)) (k : jsstring)
  : option jsval :=
  match props with
  | [] => None
  | (k', v) :: rest => if jsstring_eqb k' k then Some v else own_property rest k
  end.

(** ** Exceptions and results *)

Inductive exn : Type :=
| Error (message : jsstring)   (* [new Error(message)] *)
| TypeError                    (* a property read on [undefined] or [null] *)
| SyntaxError                  (* [response.json()] on a body that is not JSON *)
| FetchFailed.                 (* [fetch] itself rejected *)

Inductive result (A : Type) : Type :=
| Ok (a : A)
| Throw (e : exn).
Arguments Throw {A} e.

(** [v.name] for the property names the client reads ([calls], [records],
    [cursor], ...): none of them lives on a prototype, so on anything but an
    object with that own property the read gives [undefined], and on
    [undefined] or [null] it throws. *)
Definition get_prop (v : jsval) (name : string) : result jsval :=
  match v with
  | JUndefined | JNull => Throw TypeError
  | JObj props =>
      match own_property props (lit name) with
      | Some x => Ok x
      | None => Ok JUndefined
      end
  | _ => Ok JUndefined
  end.

(** [v[0]] *)
Definition get_index0 (v : jsval) : result jsval :=
  match v with
  | JUndefined | JNull => Throw TypeError
  | JArr items => Ok (nth 0 items JUndefined)
  | JStr s => match s with [] => Ok JUndefined | u :: _ => Ok (JStr [u]) end
  | JObj props =>
      match own_property props (lit "0") with
      | Some x => Ok x
      | None => Ok JUndefined
      end
  | _ => Ok JUndefined
  end.

(** [v?.name] *)
Definition get_prop_opt (v : jsval) (name : string) : result jsval :=
  if nullish v then Ok JUndefined else get_prop v name.

(** ** [JSON.stringify] *)

(** [QuoteJSONString]: short escapes, [\u00xx] for the other control
    characters, [\udxxx] for a surrogate without its partner. *)
Definition unicode_escape (u : N) : jsstring :=
  lit "\u" ++ [hex_digit hex_lower (N.shiftr u 12);
               hex_digit hex_lower (N.land (N.shiftr u 8) 15);
               hex_digit hex_lower (N.land (N.shiftr u 4) 15);
               hex_digit hex_lower (N.land u 15)].

Definition quote_unit (u : N) : jsstring :=
  if N.eqb u 0x08 then lit "\b"
  else if N.eqb u 0x09 then lit "\t"
  else if N.eqb u 0x0A then lit "\n"
  else if N.eqb u 0x0C then lit "\f"
  else if N.eqb u 0x0D then lit "\r"
  else if N.eqb u 0x22 then [0x5C; 0x22]%N
  else if N.eqb u 0x5C then [0x5C; 0x5C]%N
  else if (u <? 0x20)%N then unicode_escape u
  else [u].

Fixpoint quote_units (s : jsstring) : jsstring :=
  match s with
  | [] => []
  | u :: t =>
      if is_high u then
        match t with
        | v :: r =>
            if is_low v then u :: v :: quote_units r
            else unicode_escape u ++ quote_units t
        | [] => unicode_escape u
        end
      else if is_low u then unicode_escape u ++ quote_units t
      else quote_unit u ++ quote_units t
  end.

Definition QuoteJSONString (s : jsstring) : jsstring :=
  [0x22%N] ++ quote_units s ++ [0x22%N].

(** [SerializeJSONProperty]: [None] is the [undefined] result, which makes
    the enclosing object skip the property and the enclosing array write
    [null]. *)
Fixpoint SerializeJSONProperty (v : jsval) : option jsstring :=
  match v with
  | JUndefined => None
  | JNull => Some (lit "null")
  | JBool true => Some (lit "true")
  | JBool false => Some (lit "false")
  | JNum z => Some (Z_toString z)
  | JStr s => Some (QuoteJSONString s)
  | JArr items =>
      Some (lit "[" ++
            join (lit ",")
              ((fix elements (l : list jsval) : list jsstring :=
                  match l with
                  | [] => []
                  | x :: l' =>
                      match SerializeJSONProperty x with
                      | Some t => t
                      | None => lit "null"
                      end :: elements l'
                  end) items)
            ++ lit "]")
  | JObj props =>
      Some (lit "{" ++
            join (lit ",")
              ((fix members (l : list (jsstring * jsval)) : list jsstring :=
                  match l with
                  | [] => []
                  | (k, x) :: l' =>
                      match SerializeJSONProperty x with
                      | Some t =>
                          (QuoteJSONString k ++ lit ":" ++ t) :: members l'
                      | None => members l'
                      end
                  end) props)
            ++ lit "}")
  end.

Definition JSON_stringify (v : jsval) : option jsstring :=
  SerializeJSONProperty v.

(** A property that [JSON.stringify] writes out (its value is not
    [undefined]). *)
Definition serializes (kv : jsstring * jsval) : bool :=
  match SerializeJSONProperty (snd kv) with
  | Some _ => true
  | None => false
  end.

(** The keys of the members an object contributes to its serialization, in
    order. *)
Definition serialized_keys (v : jsval) : list jsstring :=
  match v with
  | JObj props => map fst (filter serializes props)
  | _ => []
  end.

(** The text of one member: quoted key, colon, value. *)
Definition member_text (kv : jsstring * jsval) : jsstring :=
  QuoteJSONString (fst kv) ++ lit ":" ++
  match SerializeJSONProperty (snd kv) with
  | Some t => t
  | None => lit ""
  end.

(** ** The network: [fetch], requests and responses *)

Inductive http_method : Type := GET | POST.

Record Request : Type := mkRequest {
  url : jsstring;
  method : http_method;
  headers : list (string * jsstring);
  body : option jsstring
}.

(** What the client reads of a [Response]: [status] (and [ok], derived from
    it), [text()] and [json()]; [json] is [None] when the body does not
    parse. *)
Record Response : Type := mkResponse {
  status : N;
  text : jsstring;
  json : option jsval
}.

(** [response.ok]: the status is in the range 200-299. *)
Definition ok (r : Response) : bool :=
  (200 <=? status r)%N && (status r <=? 299)%N.

Inductive fetch_outcome : Type :=
| Responds (r : Response)
| Rejects.

(** ** The client object and the state a method runs in *)

Record GongConfig : Type := mkConfig {
  accessKey : jsstring;
  accessKeySecret : jsstring
}.

Record GongClient : Type := mkClient {
  authHeader : jsstring
}.

Record State : Type := mkState {
  this : GongClient;
  pending : list fetch_outcome;   (* what the next calls of [fetch] meet *)
  sent : list Request             (* every request handed to [fetch] *)
}.

Definition M (A : Type) : Type := State -> result A * State.

Definition ret {A} (a : A) : M A := fun st => (Ok a, st).

Definition throw {A} (e : exn) : M A := fun st => (Throw e, st).

Definition bind {A B} (m : M A) (k : A -> M B) : M B :=
  fun st =>
    match m st with
    | (Ok a, st') => k a st'
    | (Throw e, st') => (Throw e, st')
    end.

Notation "x <- m ;; k" := (bind m (fun x => k))
  (at level 61, m at next level, right associativity).

(** A pure step that may throw ([get_prop] and the like). *)
Definition lift {A} (r : result A) : M A := fun st => (r, st).

Definition get_this : M GongClient := fun st => (Ok (this st), st).

(** [fetch(url, init)]: one exchange; the request is logged whether or not
    it is answered. *)
Definition fetch (req : Request) : M Response :=
  fun st =>
    match pending st with
    | Responds r :: rest => (Ok r, mkState (this st) rest (sent st ++ [req]))
    | Rejects :: rest => (Throw FetchFailed, mkState (this st) rest (sent st ++ [req]))
    | [] => (Throw FetchFailed, mkState (this st) [] (sent st ++ [req]))
    end.

(** [response.json()] *)
Definition Response_json (r : Response) : M jsval :=
  match json r with
  | Some v => ret v
  | None => throw SyntaxError
  end.

(** [response.text()] *)
Definition Response_text (r : Response) : M jsstring := ret (text r).

(** ** [GongClient] *)

Definition GONG_API_BASE : jsstring := lit "https://api.gong.io/v2".

(** [constructor(config)] *)
Definition constructor (config : GongConfig) : GongClient :=
  let credentials :=
    base64 (utf8_encode (accessKey config ++ lit ":" ++ accessKeySecret config)) in
  {| authHeader := lit "Basic " ++ credentials |}.

(** [request(endpoint, method = "GET", body?)] *)
Definition request (endpoint : jsstring) (method : http_method) (body : jsval)
  : M jsval :=
  let url := GONG_API_BASE ++ endpoint in
  self <- get_this ;;
  response <- fetch {| url := url;
                       method := method;
                       headers := [("Authorization"%string, authHeader self);
                                   ("Content-Type"%string, lit "application/json")];
                       body := if truthy body then JSON_stringify body else None |} ;;
  if negb (ok response) then
    errorText <- Response_text response ;;
    throw (Error (lit "Gong API error (" ++ N_toString (status response)
                    ++ lit "): " ++ errorText))
  else Response_json response.

(** [PaginatedResponse<T>], as the object literal the listing methods
    return: each field holds whatever value was put there. *)
Record PaginatedResponse : Type := mkPage {
  records : jsval;
  cursor : jsval;
  totalRecords : jsval
}.

Module ListCallsParams.
Record t : Type := mk {
  fromDateTime : option jsstring;
  toDateTime : option jsstring;
  workspaceId : option jsstring;
  cursor : option jsstring
}.
(** The default [= {}] of the parameter. *)
Definition empty : t := mk None None None None.
End ListCallsParams.

Module SearchCallsParams.
Record t : Type := mk {
  searchTerm : option jsstring;
  fromDateTime : option jsstring;
  toDateTime : option jsstring;
  primaryUserIds : option (list jsstring);
  cursor : option jsstring
}.
End SearchCallsParams.

(** The parameter of [listDeals] and of [listEmails]. *)
Module WindowParams.
Record t : Type := mk {
  fromDateTime : option jsstring;
  toDateTime : option jsstring;
  cursor : option jsstring
}.
Definition empty : t := mk None None None.
End WindowParams.

Inductive crm_object_type : Type := Account | Deal | Lead | Contact.

Definition crm_object_type_name (o : crm_object_type) : jsstring :=
  match o with
  | Account => lit "Account"
  | Deal => lit "Deal"
  | Lead => lit "Lead"
  | Contact => lit "Contact"
  end.

Module CrmParams.
Record t : Type := mk {
  objectType : crm_object_type;
  objectIds : list jsstring;
  fromDateTime : option jsstring;
  toDateTime : option jsstring
}.
End CrmParams.

Module StatsParams.
Record t : Type := mk {
  fromDate : jsstring;
  toDate : jsstring;
  userIds : option (list jsstring)
}.
End StatsParams.

(** [`${path}${q.toString() ? `?${q.toString()}` : ""}`] *)
Definition with_query (path : string) (q : URLSearchParams) : jsstring :=
  lit path ++
  (if truthy (JStr (URLSearchParams_toString q))
   then lit "?" ++ URLSearchParams_toString q
   else lit "").

(** [if (v) q.append(name, v)] *)
Definition append_if (q : URLSearchParams) (name : string) (v : option jsstring)
  : URLSearchParams :=
  match v with
  | Some s => if truthy (JStr s) then URLSearchParams_append q (lit name) s else q
  | None => q
  end.

(** The query parameters [listCalls] builds. *)
Definition listCalls_query (params : ListCallsParams.t) : URLSearchParams :=
  let q := [] in
  let q := append_if q "fromDateTime" (ListCallsParams.fromDateTime params) in
  let q := append_if q "toDateTime" (ListCallsParams.toDateTime params) in
  let q := append_if q "workspaceId" (ListCallsParams.workspaceId params) in
  let q := append_if q "cursor" (ListCallsParams.cursor params) in
  q.

Definition listCalls (params : ListCallsParams.t) : M PaginatedResponse :=
  let queryParams := listCalls_query params in
  let endpoint := with_query "/calls" queryParams in
  response <- request endpoint GET JUndefined ;;
  calls <- lift (get_prop response "calls") ;;
  meta <- lift (get_prop response "records") ;;
  c <- lift (get_prop meta "cursor") ;;
  meta' <- lift (get_prop response "records") ;;
  n <- lift (get_prop meta' "totalRecords") ;;
  ret {| records := calls; cursor := c; totalRecords := n |}.

(** The fixed content selector of [getCallsExtensive]. *)
Definition contentSelector : jsval :=
  JObj [(lit "context", JStr (lit "Extended"));
        (lit "exposedFields",
         JObj [(lit "parties", JBool true);
               (lit "content",
                JObj [(lit "trackers", JBool true);
                      (lit "topics", JBool true);
                      (lit "pointsOfInterest", JBool true)]);
               (lit "collaboration",
                JObj [(lit "publicComments", JBool true)])])].

Definition getCallsExtensive (callIds : list jsstring) : M jsval :=
  response <- request (lit "/calls/extensive") POST
                (JObj [(lit "filter", JObj [(lit "callIds", str_array callIds)]);
                       (lit "contentSelector", contentSelector)]) ;;
  lift (get_prop response "calls").

(** The body [getTranscript] passes to [request]. *)
Definition getTranscript_body (callId : jsstring) : jsval :=
  JObj [(lit "filter", JObj [(lit "callIds", JArr [JStr callId])])].

Definition getTranscript (callId : jsstring) : M jsval :=
  response <- request (lit "/calls/transcript") POST (getTranscript_body callId) ;;
  callTranscripts <- lift (get_prop response "callTranscripts") ;;
  lift (get_index0 callTranscripts).

Definition searchCalls (params : SearchCallsParams.t) : M PaginatedResponse :=
  listCalls {| ListCallsParams.fromDateTime := SearchCallsParams.fromDateTime params;
               ListCallsParams.toDateTime := SearchCallsParams.toDateTime params;
               ListCallsParams.workspaceId := None;
               ListCallsParams.cursor := SearchCallsParams.cursor params |}.

Definition listUsers_query (cursor : option jsstring) : URLSearchParams :=
  append_if [] "cursor" cursor.

Definition listUsers (cursor : option jsstring) : M PaginatedResponse :=
  let queryParams := listUsers_query cursor in
  let endpoint := with_query "/users" queryParams in
  response <- request endpoint GET JUndefined ;;
  users <- lift (get_prop response "users") ;;
  meta <- lift (get_prop response "records") ;;
  c <- lift (get_prop meta "cursor") ;;
  meta' <- lift (get_prop response "records") ;;
  n <- lift (get_prop meta' "totalRecords") ;;
  ret {| records := users; cursor := c; totalRecords := n |}.

Definition getUsers (userIds : list jsstring) : M jsval :=
  response <- request (lit "/users/extensive") POST
                (JObj [(lit "filter", JObj [(lit "userIds", str_array userIds)])]) ;;
  lift (get_prop response "users").

Definition getCallsByCrmObject (params : CrmParams.t) : M jsval :=
  response <- request (lit "/crm/object/calls") POST
                (JObj [(lit "filter",
                        JObj [(lit "objectType",
                               JStr (crm_object_type_name (CrmParams.objectType params)));
                              (lit "objectIds", str_array (CrmParams.objectIds params));
                              (lit "fromDateTime", opt_str (CrmParams.fromDateTime params));
                              (lit "toDateTime", opt_str (CrmParams.toDateTime params))])]) ;;
  lift (get_prop response "crmCallsLinks").

(** The body [listDeals] and [listEmails] pass to [request]. *)
Definition window_body (params : WindowParams.t) : jsval :=
  JObj [(lit "filter",
         JObj [(lit "fromDateTime", opt_str (WindowParams.fromDateTime params));
               (lit "toDateTime", opt_str (WindowParams.toDateTime params))]);
        (lit "cursor", opt_str (WindowParams.cursor params))].

Definition listDeals (params : WindowParams.t) : M PaginatedResponse :=
  response <- request (lit "/crm/deals") POST (window_body params) ;;
  deals <- lift (get_prop response "deals") ;;
  meta <- lift (get_prop response "records") ;;
  c <- lift (get_prop_opt meta "cursor") ;;
  meta' <- lift (get_prop response "records") ;;
  n <- lift (get_prop_opt meta' "totalRecords") ;;
  ret {| records := js_or deals (JArr []); cursor := c; totalRecords := n |}.

Definition listEmails (params : WindowParams.t) : M PaginatedResponse :=
  response <- request (lit "/emails") POST (window_body params) ;;
  emailActivities <- lift (get_prop response "emailActivities") ;;
  meta <- lift (get_prop response "records") ;;
  c <- lift (get_prop_opt meta "cursor") ;;
  meta' <- lift (get_prop response "records") ;;
  n <- lift (get_prop_opt meta' "totalRecords") ;;
  ret {| records := js_or emailActivities (JArr []); cursor := c; totalRecords := n |}.

Definition getUserStats (params : StatsParams.t) : M jsval :=
  response <- request (lit "/stats/activity/aggregate") POST
                (JObj [(lit "filter",
                        JObj [(lit "fromDate", JStr (StatsParams.fromDate params));
                              (lit "toDate", JStr (StatsParams.toDate params));
                              (lit "userIds", opt_str_array (StatsParams.userIds params))])]) ;;
  lift (get_prop response "usersStats").

Definition listLibraryFolders : M jsval :=
  response <- request (lit "/library/folders") GET JUndefined ;;
  lift (get_prop response "libraryFolders").

(** ** The public surface, as data *)

(** The four listing methods with their argument. *)
Inductive listing : Type :=
| ListCalls (params : ListCallsParams.t)
| ListUsers (cursor : option jsstring)
| ListDeals (params : WindowParams.t)
| ListEmails (params : WindowParams.t).

Definition run_listing (l : listing) : M PaginatedResponse :=
  match l with
  | ListCalls params => listCalls params
  | ListUsers cursor => listUsers cursor
  | ListDeals params => listDeals params
  | ListEmails params => listEmails params
  end.

(** The envelope field a listing method reads its records from. *)
Definition array_field (l : listing) : string :=
  match l with
  | ListCalls _ => "calls"
  | ListUsers _ => "users"
  | ListDeals _ => "deals"
  | ListEmails _ => "emailActivities"
  end.

(** Every public method with its arguments. *)
Inductive invocation : Type :=
| Listing (l : listing)
| GetCallsExtensive (callIds : list jsstring)
| GetTranscript (callId : jsstring)
| SearchCalls (params : SearchCallsParams.t)
| GetUsers (userIds : list jsstring)
| GetCallsByCrmObject (params : CrmParams.t)
| GetUserStats (params : StatsParams.t)
| ListLibraryFolders.

Inductive returned : Type :=
| Page (p : PaginatedResponse)
| Value (v : jsval).

Definition fmap {A B} (f : A -> B) (m : M A) : M B :=
  x <- m ;; ret (f x).

Definition invoke (i : invocation) : M returned :=
  match i with
  | Listing l => fmap Page (run_listing l)
  | GetCallsExtensive callIds => fmap Value (getCallsExtensive callIds)
  | GetTranscript callId => fmap Value (getTranscript callId)
  | SearchCalls params => fmap Page (searchCalls params)
  | GetUsers userIds => fmap Value (getUsers userIds)
  | GetCallsByCrmObject params => fmap Value (getCallsByCrmObject params)
  | GetUserStats params => fmap Value (getUserStats params)
  | ListLibraryFolders => fmap Value listLibraryFolders
  end.

(** A caller that makes one call after the other on the same client,
    catching whatever a call throws. *)
Fixpoint session (calls : list invocation) (st : State) : State :=
  match calls with
  | [] => st
  | i :: rest => session rest (snd (invoke i st))
  end.

(** The request [request] hands to [fetch]. *)
Definition outgoing (self : GongClient) (endpoint : jsstring)
  (method : http_method) (body : jsval) : Request :=
  {| url := GONG_API_BASE ++ endpoint;
     method := method;
     headers := [("Authorization"%string, authHeader self);
                 ("Content-Type"%string, lit "application/json")];
     body := if truthy body then JSON_stringify body else None |}.

(** ** Properties of computations *)

(** A computation that leaves the client object as it found it. *)
Definition keeps_this {A} (m : M A) : Prop :=
  forall st, this (snd (m st)) = this st.

(** A computation that touches neither the client nor the network. *)
Definition silent {A} (m : M A) : Prop :=
  forall st, snd (m st) = st.

(** The arguments of [listCalls] that [searchCalls] keeps. *)
Definition kept_by_searchCalls (params : SearchCallsParams.t) : ListCallsParams.t :=
  {| ListCallsParams.fromDateTime := SearchCallsParams.fromDateTime params;
     ListCallsParams.toDateTime := SearchCallsParams.toDateTime params;
     ListCallsParams.workspaceId := None;
     ListCallsParams.cursor := SearchCallsParams.cursor params |}.

(** The value of the Authorization header of a request. *)
Definition authorization (req : Request) : option jsstring :=
  match headers req with
  | (name, value) :: _ => if String.eqb name "Authorization" then Some value else None
  | [] => None
  end.

(** ** Reading a request back *)

(** The pieces of [s] between occurrences of [sep]. *)
Fixpoint split_on (sep : N) (s : jsstring) : list jsstring :=
  match s with
  | [] => [[]]
  | c :: t =>
      if N.eqb c sep then [] :: split_on sep t
      else match split_on sep t with
           | piece :: pieces => (c :: piece) :: pieces
           | [] => [[c]]
           end
  end.

(** The part of [s] before the first [sep] (all of it if there is none). *)
Fixpoint before (sep : N) (s : jsstring) : jsstring :=
  match s with
  | [] => []
  | c :: t => if N.eqb c sep then [] else c :: before sep t
  end.

(** The part of [s] after the first [sep] (nothing if there is none). *)
Fixpoint after (sep : N) (s : jsstring) : jsstring :=
  match s with
  | [] => []
  | c :: t => if N.eqb c sep then t else after sep t
  end.

Definition question_mark : N := 0x3F%N.
Definition ampersand : N := 0x26%N.
Definition equals_sign : N := 0x3D%N.

(** The query string of a URL: what follows the first [?]. *)
Definition query_of_url (u : jsstring) : jsstring := after question_mark u.

Definition nonempty (s : jsstring) : bool :=
  match s with [] => false | _ :: _ => true end.

(** The parameter names a query string carries, as written on the wire:
    the query is cut at each [&], empty pieces are skipped, and a name runs
    up to the first [=]. *)
Definition query_names (qs : jsstring) : list jsstring :=
  map (before equals_sign) (filter nonempty (split_on ampersand qs)).

(** The value of property [name] of an object literal ([undefined] if it
    has none). *)
Definition field (v : jsval) (name : string) : jsval :=
  match v with
  | JObj props =>
      match own_property props (lit name) with
      | Some x => x
      | None => JUndefined
      end
  | _ => JUndefined
  end.

(** The optional filter parameters of the listing methods. *)
Definition optional_parameters : list string :=
  ["fromDateTime"; "toDateTime"; "workspaceId"; "cursor"]%string.

(** What the caller gave for an optional parameter; [None] when it was left
    unset (or when the method has no such parameter). *)
Definition given (l : listing) (name : string) : option jsstring :=
  match l with
  | ListCalls params =>
      if String.eqb name "fromDateTime" then ListCallsParams.fromDateTime params
      else if String.eqb name "toDateTime" then ListCallsParams.toDateTime params
      else if String.eqb name "workspaceId" then ListCallsParams.workspaceId params
      else if String.eqb name "cursor" then ListCallsParams.cursor params
      else None
  | ListUsers cursor =>
      if String.eqb name "cursor" then cursor else None
  | ListDeals params | ListEmails params =>
      if String.eqb name "fromDateTime" then WindowParams.fromDateTime params
      else if String.eqb name "toDateTime" then WindowParams.toDateTime params
      else if String.eqb name "cursor" then WindowParams.cursor params
      else None
  end.

(** The endpoint and the body value each listing method passes to
    [request]. *)
Definition listing_endpoint (l : listing) : jsstring :=
  match l with
  | ListCalls params => with_query "/calls" (listCalls_query params)
  | ListUsers cursor => with_query "/users" (listUsers_query cursor)
  | ListDeals _ => lit "/crm/deals"
  | ListEmails _ => lit "/emails"
  end.

Definition listing_method (l : listing) : http_method :=
  match l with
  | ListCalls _ | ListUsers _ => GET
  | ListDeals _ | ListEmails _ => POST
  end.

Definition listing_body (l : listing) : jsval :=
  match l with
  | ListCalls _ | ListUsers _ => JUndefined
  | ListDeals params | ListEmails params => window_body params
  end.

(** The properties an object literal would have if only the parameters
    that were given had been written into it. *)
Fixpoint only_given (l : list (string * option jsstring))
  : list (jsstring * jsval) :=
  match l with
  | [] => []
  | (name, Some s) :: rest => (lit name, JStr s) :: only_given rest
  | (_, None) :: rest => only_given rest
  end.

Definition window_body_given (params : WindowParams.t) : jsval :=
  JObj ((lit "filter",
         JObj (only_given
                 [("fromDateTime"%string, WindowParams.fromDateTime params);
                  ("toDateTime"%string, WindowParams.toDateTime params)]))
        :: only_given [("cursor"%string, WindowParams.cursor params)]).

(** The query parameters a listing method builds (none for the POST ones). *)
Definition listing_query (l : listing) : URLSearchParams :=
  match l with
  | ListCalls params => listCalls_query params
  | ListUsers cursor => listUsers_query cursor
  | ListDeals _ | ListEmails _ => []
  end.

Definition listing_body_given (l : listing) : jsval :=
  match l with
  | ListCalls _ | ListUsers _ => JUndefined
  | ListDeals params | ListEmails params => window_body_given params
  end.

(** The request a listing method sends. *)
Definition listing_request (self : GongClient) (l : listing) : Request :=
  outgoing self (listing_endpoint l) (listing_method l) (listing_body l).

Definition free_of (sep : N) (s : jsstring) : Prop :=
  Forall (fun c => c <> sep) s.

(** ** Sample data *)

Definition sample_client : GongClient :=
  constructor {| accessKey := lit "k"; accessKeySecret := lit "s" |}.

(** A fresh client about to meet one response. *)
Definition facing (r : Response) : State :=
  {| this := sample_client; pending := [Responds r]; sent := [] |}.

Definition success (envelope : jsval) : Response :=
  {| status := 200; text := lit ""; json := Some envelope |}.

Definition sample_metadata : jsval :=
  JObj [(lit "currentPageSize", JNum 2);
        (lit "cursor", JStr (lit "next-page"));
        (lit "totalRecords", JNum 7)].

(** An envelope with metadata and the array of every listing method. *)
Definition full_envelope : jsval :=
  JObj [(lit "requestId", JStr (lit "r1"));
        (lit "records", sample_metadata);
        (lit "calls", JArr [JObj [(lit "id", JStr (lit "c1"))]]);
        (lit "users", JArr [JObj [(lit "id", JStr (lit "u1"))]]);
        (lit "deals", JArr [JObj [(lit "id", JStr (lit "d1"))]]);
        (lit "emailActivities", JArr [JObj [(lit "id", JStr (lit "e1"))]])].

(** Metadata, but no array field at all. *)
Definition envelope_without_array : jsval :=
  JObj [(lit "requestId", JStr (lit "r1"));
        (lit "records", sample_metadata)].

(** An (empty) array under every name, but no metadata object. *)
Definition envelope_without_metadata : jsval :=
  JObj [(lit "requestId", JStr (lit "r1"));
        (lit "calls", JArr []);
        (lit "users", JArr []);
        (lit "deals", JArr []);
        (lit "emailActivities", JArr [])].

(** Only the request id: what an account without the integration gets. *)
Definition bare_envelope : jsval :=
  JObj [(lit "requestId", JStr (lit "r1"))].

Definition rate_limited : Response :=
  {| status := 429; text := lit "rate limited"; json := None |}.

(** ** Further observations on requests and envelopes *)

(** The name and value of each parameter a query string carries, as written
    on the wire. *)
Definition query_pairs (qs : jsstring) : list (jsstring * jsstring) :=
  map (fun piece => (before equals_sign piece, after equals_sign piece))
    (filter nonempty (split_on ampersand qs)).

(** The optional parameters a caller gave with a non-empty value, in the
    order of [optional_parameters]. *)
Definition given_nonempty (l : listing) : list (string * jsstring) :=
  flat_map (fun name =>
              match given l name with
              | Some (u :: t) => [(name, u :: t)]
              | _ => []
              end) optional_parameters.

(** The optional parameters a caller gave at all (the empty string
    included), in the order of [optional_parameters]. *)
Definition given_names (l : listing) : list string :=
  filter (fun name => match given l name with Some _ => true | None => false end)
    optional_parameters.

(** The bodies the lookup methods pass to [request]. *)
Definition getCallsExtensive_body (callIds : list jsstring) : jsval :=
  JObj [(lit "filter", JObj [(lit "callIds", str_array callIds)]);
        (lit "contentSelector", contentSelector)].

Definition getUsers_body (userIds : list jsstring) : jsval :=
  JObj [(lit "filter", JObj [(lit "userIds", str_array userIds)])].

Definition getCallsByCrmObject_body (params : CrmParams.t) : jsval :=
  JObj [(lit "filter",
         JObj [(lit "objectType",
                JStr (crm_object_type_name (CrmParams.objectType params)));
               (lit "objectIds", str_array (CrmParams.objectIds params));
               (lit "fromDateTime", opt_str (CrmParams.fromDateTime params));
               (lit "toDateTime", opt_str (CrmParams.toDateTime params))])].

Definition getUserStats_body (params : StatsParams.t) : jsval :=
  JObj [(lit "filter",
         JObj [(lit "fromDate", JStr (StatsParams.fromDate params));
               (lit "toDate", JStr (StatsParams.toDate params));
               (lit "userIds", opt_str_array (StatsParams.userIds params))])].

(** [Some name] when the option holds a value, for listing keys. *)
Definition key_if {A} (name : string) (o : option A) : list jsstring :=
  match o with
  | Some _ => [lit name]
  | None => []
  end.

(** A request as every method shapes it: under the API base, with the two
    fixed headers, and with a body exactly when it is a POST. *)
Definition well_shaped (self : GongClient) (req : Request) : Prop :=
  prefix_b GONG_API_BASE (url req) = true /\
  headers req = [("Authorization"%string, authHeader self);
                 ("Content-Type"%string, lit "application/json")] /\
  (method req = GET <-> body req = None).

(** A computation whose outcome is the same in every state. *)
Definition reads_no_state {A} (m : M A) : Prop :=
  forall st st', fst (m st) = fst (m st').

(** The five methods that unwrap one field of the envelope, with their
    argument. *)
Inductive unwrap : Type :=
| UnwrapCrmCalls (params : CrmParams.t)
| UnwrapCallsExtensive (callIds : list jsstring)
| UnwrapUsers (userIds : list jsstring)
| UnwrapUserStats (params : StatsParams.t)
| UnwrapLibraryFolders.

Definition run_unwrap (u : unwrap) : M jsval :=
  match u with
  | UnwrapCrmCalls params => getCallsByCrmObject params
  | UnwrapCallsExtensive callIds => getCallsExtensive callIds
  | UnwrapUsers userIds => getUsers userIds
  | UnwrapUserStats params => getUserStats params
  | UnwrapLibraryFolders => listLibraryFolders
  end.

(** The envelope field each of them returns. *)
Definition unwrap_field (u : unwrap) : string :=
  match u with
  | UnwrapCrmCalls _ => "crmCallsLinks"
  | UnwrapCallsExtensive _ => "calls"
  | UnwrapUsers _ => "users"
  | UnwrapUserStats _ => "usersStats"
  | UnwrapLibraryFolders => "libraryFolders"
  end.

(** A code unit of a JavaScript string. *)
Definition code_unit (u : N) : Prop := (u < 0x10000)%N.

(** A character of the base64 alphabet, or the padding character. *)
Definition base64_character (c : N) : bool :=
  existsb (N.eqb c) base64_alphabet || N.eqb c base64_pad.

(** A response with a success status whose body is the JSON text [null]. *)
Definition null_body : Response :=
  {| status := 200; text := lit "null"; json := Some JNull |}.

(** A success status with a body that is not JSON. *)
Definition garbled : Response :=
  {| status := 200; text := lit "<html>"; json := None |}.

(** ** Ground facts about the monad and [request] *)

Unset Implicit Arguments.

Section Effects.

Lemma silent_ret A (a : A) : silent (ret a).
Proof. intros st; reflexivity. Qed.

Lemma silent_throw A e : silent (@throw A e).
Proof. intros st; reflexivity. Qed.

Lemma silent_lift A (r : result A) : silent (lift r).
Proof. intros st; reflexivity. Qed.

Lemma silent_bind A B (m : M A) (k : A -> M B) :
  silent m -> (forall a, silent (k a)) -> silent (bind m k).
Proof.
  intros Hm Hk st. unfold bind.
  specialize (Hm st). destruct (m st) as [[a|e] st']; simpl in *; subst.
  - apply Hk.
  - reflexivity.
Qed.

Lemma silent_keeps_this A (m : M A) : silent m -> keeps_this m.
Proof. intros H st. now rewrite H. Qed.

Lemma keeps_this_bind A B (m : M A) (k : A -> M B) :
  keeps_this m -> (forall a, keeps_this (k a)) -> keeps_this (bind m k).
Proof.
  intros Hm Hk st. unfold bind.
  specialize (Hm st). destruct (m st) as [[a|e] st']; simpl in *.
  - now rewrite Hk.
  - assumption.
Qed.

Lemma keeps_this_get_this : keeps_this get_this.
Proof. intros st; reflexivity. Qed.

Lemma keeps_this_fetch req : keeps_this (fetch req).
Proof.
  intros st. unfold fetch.
  destruct (pending st) as [|[r|] rest]; reflexivity.
Qed.

Lemma silent_Response_json r : silent (Response_json r).
Proof. unfold Response_json. destruct (json r); intros st; reflexivity. Qed.

End Effects.

Create HintDb effects.
#[local] Hint Resolve silent_ret silent_throw silent_lift silent_bind
  silent_Response_json silent_keeps_this keeps_this_bind keeps_this_get_this
  keeps_this_fetch : effects.

(** [request] runs [fetch] once, on the request built from its arguments and
    the client's header, whatever the outcome. *)
Lemma request_unfold endpoint method body st :
  request endpoint method body st =
  match fetch (outgoing (this st) endpoint method body) st with
  | (Ok response, st') =>
      if negb (ok response) then
        (Throw (Error (lit "Gong API error (" ++ N_toString (status response)
                         ++ lit "): " ++ text response)), st')
      else
        match json response with
        | Some v => (Ok v, st')
        | None => (Throw SyntaxError, st')
        end
  | (Throw e, st') => (Throw e, st')
  end.
Proof.
  unfold request, bind, get_this, outgoing.
  destruct (fetch _ st) as [[response|e] st']; [|reflexivity].
  destruct (negb (ok response)); [reflexivity|].
  unfold Response_json. destruct (json response); reflexivity.
Qed.

Lemma fetch_state req st :
  snd (fetch req st) = mkState (this st) (tl (pending st)) (sent st ++ [req]).
Proof.
  unfold fetch. destruct (pending st) as [|[r|] rest]; reflexivity.
Qed.

Lemma request_state endpoint method body st :
  snd (request endpoint method body st) =
  mkState (this st) (tl (pending st))
    (sent st ++ [outgoing (this st) endpoint method body]).
Proof.
  rewrite request_unfold.
  pose proof (fetch_state (outgoing (this st) endpoint method body) st) as Hf.
  destruct (fetch _ st) as [[response|e] st']; simpl in Hf; subst st'.
  - destruct (negb (ok response)); [reflexivity|].
    destruct (json response); reflexivity.
  - reflexivity.
Qed.

Lemma keeps_this_request endpoint method body :
  keeps_this (request endpoint method body).
Proof. intros st. now rewrite request_state. Qed.

#[local] Hint Resolve keeps_this_request : effects.

(** On a success status with a body that parses, [request] returns the
    decoded body. *)
Lemma request_success endpoint method body st r rest v :
  pending st = Responds r :: rest ->
  ok r = true ->
  json r = Some v ->
  request endpoint method body st =
  (Ok v, mkState (this st) rest
           (sent st ++ [outgoing (this st) endpoint method body])).
Proof.
  intros Hp Hok Hj. rewrite request_unfold. unfold fetch.
  rewrite Hp, Hok, Hj. reflexivity.
Qed.

(** On any other status it throws the one error built from the status and
    the body text. *)
Lemma request_failure endpoint method body st r rest :
  pending st = Responds r :: rest ->
  ok r = false ->
  request endpoint method body st =
  (Throw (Error (lit "Gong API error (" ++ N_toString (status r)
                   ++ lit "): " ++ text r)),
   mkState (this st) rest
     (sent st ++ [outgoing (this st) endpoint method body])).
Proof.
  intros Hp Hok. rewrite request_unfold. unfold fetch.
  rewrite Hp, Hok. reflexivity.
Qed.

(** ** Reading envelopes *)

Lemma get_prop_total v name x :
  get_prop v name = Ok x -> forall name', exists y, get_prop v name' = Ok y.
Proof.
  destruct v; simpl; intros H name'; try discriminate; eauto.
  destruct (own_property props (lit name')); eauto.
Qed.

Lemma get_prop_not_nullish v name :
  nullish v = false -> exists y, get_prop v name = Ok y.
Proof.
  destruct v; simpl; intros H; try discriminate; eauto.
  destruct (own_property props (lit name)); eauto.
Qed.

Lemma get_prop_opt_not_nullish v name :
  nullish v = false -> get_prop_opt v name = get_prop v name.
Proof. unfold get_prop_opt. now intros ->. Qed.

Lemma get_prop_missing props name :
  own_property props (lit name) = None ->
  get_prop (JObj props) name = Ok JUndefined.
Proof. simpl. now intros ->. Qed.

(** Run a method up to the point where [request] has returned. *)
Ltac after_success Hp Hok Hj :=
  unfold run_listing, listCalls, listUsers, listDeals, listEmails,
    getCallsExtensive, getTranscript, getUsers, getCallsByCrmObject,
    getUserStats, listLibraryFolders, fmap, bind;
  rewrite (request_success _ _ _ _ _ _ _ Hp Hok Hj);
  unfold lift, ret.

(** C3. For each of the four listing methods, when the envelope carries a
    [records] metadata object, the returned [cursor] is that object's
    [cursor] and the returned [totalRecords] is its [totalRecords]. *)
Theorem listing_copies_pagination_metadata :
  forall (l : listing) (st : State) (r : Response) rest envelope metadata,
    pending st = Responds r :: rest ->
    ok r = true ->
    json r = Some envelope ->
    get_prop envelope "records" = Ok metadata ->
    nullish metadata = false ->
    exists page,
      fst (run_listing l st) = Ok page /\
      get_prop metadata "cursor" = Ok (cursor page) /\
      get_prop metadata "totalRecords" = Ok (totalRecords page).
Proof.
  intros l st r rest envelope metadata Hp Hok Hj Hmeta Hnn.
  destruct (get_prop_not_nullish metadata "cursor" Hnn) as [c Hc].
  destruct (get_prop_not_nullish metadata "totalRecords" Hnn) as [n Hn].
  destruct l as [params | cur | params | params];
    [ destruct (get_prop_total _ _ _ Hmeta "calls") as [a Ha]
    | destruct (get_prop_total _ _ _ Hmeta "users") as [a Ha]
    | destruct (get_prop_total _ _ _ Hmeta "deals") as [a Ha]
    | destruct (get_prop_total _ _ _ Hmeta "emailActivities") as [a Ha] ];
    after_success Hp Hok Hj;
    rewrite Ha, Hmeta, ?(get_prop_opt_not_nullish _ _ Hnn), Hc, Hn;
    eexists; repeat split; reflexivity.
Qed.

Lemma listing_copies_pagination_metadata_witness :
  exists page,
    fst (run_listing (ListDeals WindowParams.empty)
           (facing (success full_envelope))) = Ok page /\
    Ok (JStr (lit "next-page")) = Ok (cursor page) /\
    Ok (JNum 7) = Ok (totalRecords page).
Proof.
  apply (listing_copies_pagination_metadata
           (ListDeals WindowParams.empty) (facing (success full_envelope))
           (success full_envelope) [] full_envelope sample_metadata);
    reflexivity.
Defined.

(** C1, as stated, fails: [listCalls] hands on [response.calls] as it is,
    so an envelope without [calls] gives a page whose [records] is
    [undefined], not the empty sequence. *)
Lemma listCalls_missing_array_not_defaulted :
  own_property
    [(lit "requestId", JStr (lit "r1")); (lit "records", sample_metadata)]
    (lit (array_field (ListCalls ListCallsParams.empty))) = None /\
  fst (run_listing (ListCalls ListCallsParams.empty)
         (facing (success envelope_without_array))) =
  Ok {| records := JUndefined;
        cursor := JStr (lit "next-page");
        totalRecords := JNum 7 |} /\
  JUndefined <> JArr [].
Proof. repeat split. discriminate. Qed.

(** C1, amended. For [listDeals] and [listEmails], an envelope without the
    [deals] (resp. [emailActivities]) field makes the method return a page
    whose [records] is the empty sequence. *)
Theorem deals_and_emails_default_missing_array :
  forall (params : WindowParams.t) (st : State) (r : Response) rest props,
    pending st = Responds r :: rest ->
    ok r = true ->
    json r = Some (JObj props) ->
    (own_property props (lit "deals") = None ->
     exists page,
       fst (listDeals params st) = Ok page /\ records page = JArr []) /\
    (own_property props (lit "emailActivities") = None ->
     exists page,
       fst (listEmails params st) = Ok page /\ records page = JArr []).
Proof.
  intros params st r rest props Hp Hok Hj.
  split; intros Hmiss; after_success Hp Hok Hj;
    rewrite (get_prop_missing _ _ Hmiss);
    destruct (get_prop_not_nullish (JObj props) "records" eq_refl) as [m ->];
    unfold get_prop_opt; destruct (nullish m) eqn:Hm.
  1, 3: eexists; split; reflexivity.
  all: destruct (get_prop_not_nullish m "cursor" Hm) as [c ->];
    destruct (get_prop_not_nullish m "totalRecords" Hm) as [n ->];
    eexists; split; reflexivity.
Qed.

Lemma deals_and_emails_default_missing_array_witness :
  (exists page,
     fst (listDeals WindowParams.empty (facing (success bare_envelope))) = Ok page /\
     records page = JArr []) /\
  (exists page,
     fst (listEmails WindowParams.empty (facing (success bare_envelope))) = Ok page /\
     records page = JArr []).
Proof.
  destruct (deals_and_emails_default_missing_array WindowParams.empty
              (facing (success bare_envelope)) (success bare_envelope) []
              [(lit "requestId", JStr (lit "r1"))]
              eq_refl eq_refl eq_refl) as [Hd He].
  split; [apply Hd | apply He]; reflexivity.
Defined.

(** C2, as stated, fails: [listCalls] reads [response.records.cursor]
    unguarded, so an envelope without the metadata object makes it throw. *)
Lemma listCalls_missing_metadata_throws :
  own_property
    [(lit "requestId", JStr (lit "r1")); (lit "calls", JArr []);
     (lit "users", JArr []); (lit "deals", JArr []);
     (lit "emailActivities", JArr [])]
    (lit "records") = None /\
  fst (run_listing (ListCalls ListCallsParams.empty)
         (facing (success envelope_without_metadata))) = Throw TypeError.
Proof. split; reflexivity. Qed.

(** C2, amended. For [listDeals] and [listEmails], an envelope without the
    [records] metadata object raises no error: the page comes back with
    [cursor] and [totalRecords] both [undefined]. *)
Theorem deals_and_emails_tolerate_missing_metadata :
  forall (l : listing) (st : State) (r : Response) rest props,
    (exists params, l = ListDeals params \/ l = ListEmails params) ->
    pending st = Responds r :: rest ->
    ok r = true ->
    json r = Some (JObj props) ->
    own_property props (lit "records") = None ->
    exists page,
      fst (run_listing l st) = Ok page /\
      cursor page = JUndefined /\
      totalRecords page = JUndefined.
Proof.
  intros l st r rest props [params [-> | ->]] Hp Hok Hj Hmiss;
    [ destruct (get_prop_not_nullish (JObj props) "deals" eq_refl) as [a Ha]
    | destruct (get_prop_not_nullish (JObj props) "emailActivities" eq_refl)
        as [a Ha] ];
    after_success Hp Hok Hj;
    rewrite Ha, (get_prop_missing _ _ Hmiss);
    eexists; repeat split; reflexivity.
Qed.

Lemma deals_and_emails_tolerate_missing_metadata_witness :
  exists page,
    fst (run_listing (ListEmails WindowParams.empty)
           (facing (success envelope_without_metadata))) = Ok page /\
    cursor page = JUndefined /\
    totalRecords page = JUndefined.
Proof.
  apply (deals_and_emails_tolerate_missing_metadata
           (ListEmails WindowParams.empty)
           (facing (success envelope_without_metadata))
           (success envelope_without_metadata) []
           [(lit "requestId", JStr (lit "r1")); (lit "calls", JArr []);
            (lit "users", JArr []); (lit "deals", JArr []);
            (lit "emailActivities", JArr [])]).
  - exists WindowParams.empty. right. reflexivity.
  - reflexivity.
  - reflexivity.
  - reflexivity.
  - reflexivity.
Defined.

(** C10. The five unwrap methods return the envelope's array field as it
    is, with no default: what the method gives is what reading that field
    of the decoded body gives. So a field that is there is returned
    unchanged, whatever it holds, and when the envelope has no such field
    the result is [undefined], never an empty list put in its place. *)
Theorem unwrap_methods_return_missing_field_as_undefined :
  forall (u : unwrap) (st : State) (r : Response) rest envelope,
    pending st = Responds r :: rest ->
    ok r = true ->
    json r = Some envelope ->
    fst (run_unwrap u st) = get_prop envelope (unwrap_field u) /\
    (forall props,
        envelope = JObj props ->
        (own_property props (lit (unwrap_field u)) = None ->
         fst (run_unwrap u st) = Ok JUndefined /\
         fst (run_unwrap u st) <> Ok (JArr [])) /\
        (forall x,
            own_property props (lit (unwrap_field u)) = Some x ->
            fst (run_unwrap u st) = Ok x)).
Proof.
  intros u st r rest envelope Hp Hok Hj.
  assert (Hrun : fst (run_unwrap u st) = get_prop envelope (unwrap_field u)).
  { destruct u as [params | ids | ids | params | ];
      unfold run_unwrap; after_success Hp Hok Hj;
      cbn [unwrap_field]; destruct (get_prop envelope _); reflexivity. }
  split; [exact Hrun|].
  intros props ->. rewrite Hrun. split.
  - intros Hmiss. rewrite (get_prop_missing _ _ Hmiss).
    split; [reflexivity | discriminate].
  - intros x Hx. simpl. now rewrite Hx.
Qed.

Lemma unwrap_methods_return_missing_field_as_undefined_witness :
  fst (getCallsByCrmObject
         (CrmParams.mk Deal [lit "d1"] None None)
         (facing (success bare_envelope))) = Ok JUndefined /\
  fst (getCallsExtensive [lit "c1"] (facing (success bare_envelope))) = Ok JUndefined /\
  fst (getUsers [lit "u1"] (facing (success bare_envelope))) = Ok JUndefined /\
  fst (getUserStats (StatsParams.mk (lit "2024-01-01") (lit "2024-02-01") None)
         (facing (success bare_envelope))) = Ok JUndefined /\
  fst (listLibraryFolders (facing (success bare_envelope))) = Ok JUndefined /\
  fst (getUsers [lit "u1"] (facing (success full_envelope))) =
    Ok (JArr [JObj [(lit "id", JStr (lit "u1"))]]).
Proof.
  assert (Hmissing : forall u,
             own_property [(lit "requestId", JStr (lit "r1"))]
               (lit (unwrap_field u)) = None ->
             fst (run_unwrap u (facing (success bare_envelope))) = Ok JUndefined).
  { intros u Hnone.
    apply (proj1 (proj2 (unwrap_methods_return_missing_field_as_undefined u
             (facing (success bare_envelope)) (success bare_envelope) []
             bare_envelope eq_refl eq_refl eq_refl)
             [(lit "requestId", JStr (lit "r1"))] eq_refl)).
    exact Hnone. }
  split; [apply (Hmissing (UnwrapCrmCalls (CrmParams.mk Deal [lit "d1"] None None)));
          reflexivity|].
  split; [apply (Hmissing (UnwrapCallsExtensive [lit "c1"])); reflexivity|].
  split; [apply (Hmissing (UnwrapUsers [lit "u1"])); reflexivity|].
  split; [apply (Hmissing (UnwrapUserStats
                    (StatsParams.mk (lit "2024-01-01") (lit "2024-02-01") None)));
          reflexivity|].
  split; [apply (Hmissing UnwrapLibraryFolders); reflexivity|].
  apply (proj1 (unwrap_methods_return_missing_field_as_undefined
           (UnwrapUsers [lit "u1"]) (facing (success full_envelope))
           (success full_envelope) [] full_envelope eq_refl eq_refl eq_refl)).
Defined.

(** ** What goes out *)

Lemma bind_silent_state A B (m : M A) (k : A -> M B) st :
  (forall a, silent (k a)) -> snd (bind m k st) = snd (m st).
Proof.
  intros Hk. unfold bind. destruct (m st) as [[a|e] st']; simpl.
  - apply Hk.
  - reflexivity.
Qed.

(** The text of the body [getTranscript] sends for a call id. *)
Lemma getTranscript_body_text callId :
  JSON_stringify (getTranscript_body callId) =
  Some (lit "{" ++ QuoteJSONString (lit "filter") ++ lit ":{"
          ++ QuoteJSONString (lit "callIds") ++ lit ":["
          ++ QuoteJSONString callId ++ lit "]}}").
Proof.
  unfold JSON_stringify, getTranscript_body. simpl.
  rewrite !app_nil_r. repeat (rewrite <- ?app_assoc; simpl). reflexivity.
Qed.

(** C6. [getTranscript] sends one POST to /calls/transcript whose body is
    [{filter: {callIds: [callId]}}], the identifier alone in a one-element
    array; and when the envelope's [callTranscripts] is the empty array the
    method returns [undefined] instead of throwing. *)
Theorem getTranscript_single_id_and_empty_result :
  forall (callId : jsstring) (st : State),
    sent (snd (getTranscript callId st)) =
      sent st ++
      [outgoing (this st) (lit "/calls/transcript") POST
         (JObj [(lit "filter", JObj [(lit "callIds", JArr [JStr callId])])])] /\
    body (outgoing (this st) (lit "/calls/transcript") POST
            (JObj [(lit "filter", JObj [(lit "callIds", JArr [JStr callId])])])) =
      Some (lit "{" ++ QuoteJSONString (lit "filter") ++ lit ":{"
              ++ QuoteJSONString (lit "callIds") ++ lit ":["
              ++ QuoteJSONString callId ++ lit "]}}") /\
    (forall (r : Response) rest props,
        pending st = Responds r :: rest ->
        ok r = true ->
        json r = Some (JObj props) ->
        own_property props (lit "callTranscripts") = Some (JArr []) ->
        fst (getTranscript callId st) = Ok JUndefined).
Proof.
  intros callId st. split; [|split].
  - unfold getTranscript. rewrite bind_silent_state.
    + now rewrite request_state.
    + intros a. auto with effects.
  - unfold outgoing. cbn [body truthy]. apply getTranscript_body_text.
  - intros r rest props Hp Hok Hj Hempty.
    after_success Hp Hok Hj. simpl. rewrite Hempty. reflexivity.
Qed.

Lemma getTranscript_single_id_and_empty_result_witness :
  fst (getTranscript (lit "call-1")
         (facing (success (JObj [(lit "requestId", JStr (lit "r1"));
                                 (lit "callTranscripts", JArr [])])))) =
  Ok JUndefined.
Proof.
  apply (proj2 (proj2 (getTranscript_single_id_and_empty_result (lit "call-1")
           (facing (success (JObj [(lit "requestId", JStr (lit "r1"));
                                   (lit "callTranscripts", JArr [])])))))
           (success (JObj [(lit "requestId", JStr (lit "r1"));
                           (lit "callTranscripts", JArr [])])) []
           [(lit "requestId", JStr (lit "r1")); (lit "callTranscripts", JArr [])]);
    reflexivity.
Defined.

Lemma listCalls_state params st :
  snd (listCalls params st) =
  mkState (this st) (tl (pending st))
    (sent st ++ [outgoing (this st)
                   (with_query "/calls" (listCalls_query params)) GET JUndefined]).
Proof.
  unfold listCalls. rewrite bind_silent_state.
  - apply request_state.
  - intros a. auto 10 with effects.
Qed.

(** C5. [searchCalls] behaves as [listCalls] on the date range and cursor
    of its argument: same result, same request sent; [searchTerm] and
    [primaryUserIds] have no effect on either. *)
Theorem searchCalls_is_listCalls_on_dates_and_cursor :
  forall (params : SearchCallsParams.t) (st : State),
    searchCalls params st = listCalls (kept_by_searchCalls params) st /\
    sent (snd (searchCalls params st)) =
      sent st ++
      [outgoing (this st)
         (with_query "/calls" (listCalls_query (kept_by_searchCalls params)))
         GET JUndefined] /\
    (forall searchTerm primaryUserIds,
        searchCalls
          (SearchCallsParams.mk searchTerm
             (SearchCallsParams.fromDateTime params)
             (SearchCallsParams.toDateTime params)
             primaryUserIds
             (SearchCallsParams.cursor params)) st =
        searchCalls params st).
Proof.
  intros params st. split; [reflexivity|]. split.
  - unfold searchCalls. rewrite listCalls_state. reflexivity.
  - intros. reflexivity.
Qed.

(** ** Failures *)

(** C7. Whatever the method, a response whose status is not in 200-299
    makes it throw one [Error] whose message holds the status code and the
    body text as received; one request has been sent and one response
    consumed, no more. *)
Theorem non_success_status_fails_without_retry :
  forall (i : invocation) (st : State) (r : Response) rest,
    pending st = Responds r :: rest ->
    ok r = false ->
    exists message request_sent,
      invoke i st =
        (Throw (Error message),
         {| this := this st; pending := rest; sent := sent st ++ [request_sent] |}) /\
      message = lit "Gong API error (" ++ N_toString (status r) ++ lit "): " ++ text r /\
      occurs_in (N_toString (status r)) message /\
      occurs_in (text r) message.
Proof.
  intros i st r rest Hp Hok.
  exists (lit "Gong API error (" ++ N_toString (status r) ++ lit "): " ++ text r).
  assert (Hrun : exists request_sent,
             invoke i st =
             (Throw (Error (lit "Gong API error (" ++ N_toString (status r)
                              ++ lit "): " ++ text r)),
              {| this := this st; pending := rest;
                 sent := sent st ++ [request_sent] |})).
  { destruct i as [[params | cur | params | params] | ids | id | params | ids
                  | params | params | ];
      unfold invoke, run_listing, searchCalls, listCalls, listUsers, listDeals,
        listEmails, getCallsExtensive, getTranscript, getUsers,
        getCallsByCrmObject, getUserStats, listLibraryFolders, fmap, bind;
      rewrite (request_failure _ _ _ _ _ _ Hp Hok); eexists; reflexivity. }
  destruct Hrun as [request_sent Hrun].
  exists request_sent. split; [exact Hrun|]. split; [reflexivity|]. split.
  - exists (lit "Gong API error ("), (lit "): " ++ text r). reflexivity.
  - exists (lit "Gong API error (" ++ N_toString (status r) ++ lit "): "), [].
    rewrite app_nil_r, <- !app_assoc. reflexivity.
Qed.

Lemma non_success_status_fails_without_retry_witness :
  exists message request_sent,
    invoke (GetTranscript (lit "call-1")) (facing rate_limited) =
      (Throw (Error message),
       {| this := sample_client; pending := []; sent := [] ++ [request_sent] |}) /\
    message = lit "Gong API error (" ++ lit "429" ++ lit "): " ++ lit "rate limited" /\
    occurs_in (lit "429") message /\
    occurs_in (lit "rate limited") message.
Proof.
  apply (non_success_status_fails_without_retry (GetTranscript (lit "call-1"))
           (facing rate_limited) rate_limited [] eq_refl eq_refl).
Defined.

(** The same run, computed: the message and the one request that left. *)
Example rate_limited_run :
  invoke (Listing (ListCalls ListCallsParams.empty)) (facing rate_limited) =
  (Throw (Error (lit "Gong API error (429): rate limited")),
   {| this := sample_client;
      pending := [];
      sent := [{| url := lit "https://api.gong.io/v2/calls";
                  method := GET;
                  headers := [("Authorization"%string, lit "Basic azpz");
                              ("Content-Type"%string, lit "application/json")];
                  body := None |}] |}) /\
  includes (lit "Gong API error (429): rate limited") (lit "429") = true /\
  includes (lit "Gong API error (429): rate limited") (lit "rate limited") = true.
Proof. repeat split. Qed.

(** ** The client object *)

(** Every method leaves the state as one call of [request] leaves it: the
    client untouched, one response consumed, one request logged, carrying
    the client's header. *)
Lemma invoke_state i st :
  exists endpoint method body,
    snd (invoke i st) =
    mkState (this st) (tl (pending st))
      (sent st ++ [outgoing (this st) endpoint method body]).
Proof.
  destruct i as [[params | cur | params | params] | ids | id | params | ids
                | params | params | ];
    do 3 eexists;
    unfold invoke, run_listing, searchCalls, listCalls, listUsers, listDeals,
      listEmails, getCallsExtensive, getTranscript, getUsers,
      getCallsByCrmObject, getUserStats, listLibraryFolders, fmap;
    (rewrite bind_silent_state; [|intros a; auto with effects]);
    (rewrite bind_silent_state; [|intros a; auto 10 with effects]);
    apply request_state.
Qed.

(** C9. The client object is its [authHeader] and nothing else, and no
    method changes it: after any public method, and after any call of
    [request], the client is the one the call started with. *)
Theorem client_state_is_never_modified :
  (forall c : GongClient, c = {| authHeader := authHeader c |}) /\
  (forall (i : invocation) (st : State), this (snd (invoke i st)) = this st) /\
  (forall endpoint method body (st : State),
      this (snd (request endpoint method body st)) = this st) /\
  (forall (calls : list invocation) (st : State),
      this (session calls st) = this st).
Proof.
  assert (Hinv : forall i st, this (snd (invoke i st)) = this st).
  { intros i st. destruct (invoke_state i st) as (e & m & b & ->). reflexivity. }
  repeat split.
  - intros [h]; reflexivity.
  - exact Hinv.
  - intros. apply keeps_this_request.
  - intros calls. induction calls as [|i calls IH]; intros st; simpl.
    + reflexivity.
    + rewrite IH. apply Hinv.
Qed.

Lemma session_requests_carry_header h calls :
  forall st,
    authHeader (this st) = h ->
    Forall (fun req => authorization req = Some h) (sent st) ->
    Forall (fun req => authorization req = Some h) (sent (session calls st)).
Proof.
  induction calls as [|i calls IH]; intros st Hh Hsent; simpl.
  - exact Hsent.
  - destruct (invoke_state i st) as (e & m & b & Hst).
    apply IH; rewrite Hst; simpl.
    + exact Hh.
    + apply Forall_app. split; [exact Hsent|].
      constructor; [|constructor]. unfold authorization. simpl. now rewrite Hh.
Qed.

(** C8. The constructor sets [authHeader] to ["Basic "] followed by the
    base64 of [accessKey:accessKeySecret] (for [k] and [s]: [Basic azpz]),
    and every request of every later call carries exactly that value as its
    Authorization header: a request takes the header from the field as it
    stands, whatever the field holds, and computes nothing. *)
Theorem credential_fixed_at_construction :
  authHeader (constructor {| accessKey := lit "k"; accessKeySecret := lit "s" |}) =
    lit "Basic " ++ base64 (utf8_encode (lit "k:s")) /\
  lit "Basic " ++ base64 (utf8_encode (lit "k:s")) = lit "Basic azpz" /\
  (forall config : GongConfig,
      authHeader (constructor config) =
      lit "Basic " ++
      base64 (utf8_encode (accessKey config ++ lit ":" ++ accessKeySecret config))) /\
  (forall (config : GongConfig) (calls : list invocation) script,
      Forall (fun req =>
                authorization req =
                Some (lit "Basic " ++
                      base64 (utf8_encode
                                (accessKey config ++ lit ":" ++ accessKeySecret config))))
        (sent (session calls
                 {| this := constructor config; pending := script; sent := [] |}))) /\
  (forall (self : GongClient) (calls : list invocation) script,
      Forall (fun req => authorization req = Some (authHeader self))
        (sent (session calls {| this := self; pending := script; sent := [] |}))).
Proof.
  split; [reflexivity|]. split; [reflexivity|]. split; [reflexivity|].
  split.
  - intros config calls script.
    apply session_requests_carry_header; [reflexivity | constructor].
  - intros self calls script.
    apply session_requests_carry_header; [reflexivity | constructor].
Qed.

Section Wire.

Lemma hex_upper_digit_free i sep :
  sep = ampersand \/ sep = equals_sign ->
  hex_digit hex_upper i <> sep.
Proof.
  intros Hsep. unfold hex_digit. generalize (N.to_nat i) as n. intros n.
  do 16 (destruct n as [|n];
         [destruct Hsep as [-> | ->]; vm_compute; discriminate|]).
  destruct n; destruct Hsep as [-> | ->]; vm_compute; discriminate.
Qed.

Lemma form_encode_byte_free b sep :
  sep = ampersand \/ sep = equals_sign ->
  free_of sep (form_encode_byte b).
Proof.
  intros Hsep. unfold form_encode_byte, free_of.
  destruct (form_unreserved b) eqn:Hun.
  - constructor; [|constructor]. intros Heq.
    destruct Hsep as [-> | ->]; subst b; vm_compute in Hun; discriminate.
  - destruct (N.eqb b 0x20).
    + constructor; [|constructor].
      destruct Hsep as [-> | ->]; vm_compute; discriminate.
    + repeat constructor;
        try (apply hex_upper_digit_free; assumption).
      destruct Hsep as [-> | ->]; vm_compute; discriminate.
Qed.

Lemma form_encode_free s sep :
  sep = ampersand \/ sep = equals_sign ->
  free_of sep (form_encode s).
Proof.
  intros Hsep. unfold form_encode, free_of.
  apply Forall_flat_map. apply Forall_forall. intros b _.
  now apply form_encode_byte_free.
Qed.

Lemma before_app sep p rest :
  free_of sep p -> before sep (p ++ sep :: rest) = p.
Proof.
  induction 1 as [|c p Hc Hp IH]; simpl.
  - now rewrite N.eqb_refl.
  - apply N.eqb_neq in Hc. rewrite Hc. now rewrite IH.
Qed.

Lemma split_on_app sep p rest :
  free_of sep p -> split_on sep (p ++ sep :: rest) = p :: split_on sep rest.
Proof.
  induction 1 as [|c p Hc Hp IH]; simpl.
  - now rewrite N.eqb_refl.
  - apply N.eqb_neq in Hc. rewrite Hc. now rewrite IH.
Qed.

Lemma split_on_free sep p : free_of sep p -> split_on sep p = [p].
Proof.
  induction 1 as [|c p Hc Hp IH]; simpl.
  - reflexivity.
  - apply N.eqb_neq in Hc. rewrite Hc. now rewrite IH.
Qed.

Lemma split_on_join p ps :
  Forall (free_of ampersand) (p :: ps) ->
  split_on ampersand (p ++ flat_map (fun q => lit "&" ++ q) ps) = p :: ps.
Proof.
  revert p. induction ps as [|q ps IH]; intros p Hfree; cbn [flat_map].
  - rewrite app_nil_r. apply split_on_free. now inversion Hfree.
  - inversion Hfree as [|? ? Hp Hps]; subst.
    change (lit "&") with [ampersand]. cbn [app].
    rewrite split_on_app by assumption. now rewrite IH.
Qed.

Lemma form_pair_free kv : free_of ampersand (form_pair kv).
Proof.
  unfold form_pair, free_of. apply Forall_app. split.
  - apply form_encode_free. now left.
  - change (lit "=") with [equals_sign]. simpl. constructor.
    + vm_compute. discriminate.
    + apply form_encode_free. now left.
Qed.

Lemma form_pair_name kv :
  before equals_sign (form_pair kv) = form_encode (fst kv).
Proof.
  unfold form_pair. change (lit "=") with [equals_sign]. simpl.
  apply before_app. apply form_encode_free. now right.
Qed.

Lemma form_pair_nonempty kv : nonempty (form_pair kv) = true.
Proof.
  unfold form_pair. change (lit "=") with [equals_sign].
  destruct (form_encode (fst kv)); reflexivity.
Qed.

Lemma names_of_pairs (l : URLSearchParams) :
  map (before equals_sign) (filter nonempty (map form_pair l)) =
  map (fun kv => form_encode (fst kv)) l.
Proof.
  induction l as [|x l IH]; simpl; [reflexivity|].
  rewrite form_pair_nonempty. simpl. now rewrite form_pair_name, IH.
Qed.

(** The names read back from a serialized query are the (encoded) names
    that were appended, in order. *)
Lemma query_names_toString (q : URLSearchParams) :
  query_names (URLSearchParams_toString q) =
  map (fun kv => form_encode (fst kv)) q.
Proof.
  unfold query_names, URLSearchParams_toString.
  destruct q as [|kv q]; [reflexivity|].
  rewrite <- names_of_pairs.
  cbn [map join]. rewrite split_on_join.
  - reflexivity.
  - change (form_pair kv :: map form_pair q) with (map form_pair (kv :: q)).
    apply Forall_forall. intros x Hx. apply in_map_iff in Hx.
    destruct Hx as (y & <- & _). apply form_pair_free.
Qed.

Lemma query_of_listing_url self l :
  query_of_url (url (listing_request self l)) =
  URLSearchParams_toString (listing_query l).
Proof.
  destruct l as [params | cur | params | params]; simpl;
    try reflexivity;
    unfold with_query;
    [ destruct (URLSearchParams_toString (listCalls_query params))
    | destruct (URLSearchParams_toString (listUsers_query cur)) ];
    reflexivity.
Qed.

Lemma In_append_if x q name v :
  In x (map (fun kv => form_encode (fst kv)) (append_if q name v)) ->
  In x (map (fun kv => form_encode (fst kv)) q) \/
  (x = form_encode (lit name) /\ v <> None).
Proof.
  unfold append_if, URLSearchParams_append.
  destruct v as [s|]; [|now left].
  destruct (truthy (JStr s)); [|now left].
  rewrite map_app, in_app_iff. intros [H | [H | []]]; [now left|].
  right. split; [now rewrite <- H | discriminate].
Qed.

End Wire.

(** The text of an object is made of the members of [serialized_keys], and
    of no other. *)
Lemma JSON_stringify_object props :
  JSON_stringify (JObj props) =
  Some (lit "{" ++ join (lit ",") (map member_text (filter serializes props))
          ++ lit "}").
Proof.
  unfold JSON_stringify. cbn [SerializeJSONProperty].
  do 4 f_equal.
  induction props as [|[k x] props IH]; [reflexivity|].
  cbn [filter]. unfold serializes at 1, member_text. cbn [snd].
  destruct (SerializeJSONProperty x) as [t|] eqn:Hx.
  - cbn [map fst snd]. rewrite Hx. f_equal. exact IH.
  - exact IH.
Qed.

Lemma window_body_text params :
  JSON_stringify (window_body params) = JSON_stringify (window_body_given params).
Proof. destruct params as [[f|] [t|] [c|]]; reflexivity. Qed.

Ltac refute_membership H :=
  repeat (destruct H as [H | H]; [vm_compute in H; discriminate H|]);
  try contradiction.

Lemma unset_not_in_query l name :
  In name optional_parameters ->
  given l name = None ->
  ~ In (lit name) (map (fun kv => form_encode (fst kv)) (listing_query l)).
Proof.
  intros Hname Hgiven Hin.
  destruct l as [params | cur | params | params]; cbn [listing_query] in Hin;
    try contradiction.
  - unfold listCalls_query in Hin.
    repeat (apply In_append_if in Hin; destruct Hin as [Hin | [Heq Hne]]);
      try contradiction;
      destruct Hname as [<- | [<- | [<- | [<- | []]]]];
      cbn in Hgiven; try (vm_compute in Heq; discriminate Heq);
      contradiction.
  - unfold listUsers_query in Hin.
    apply In_append_if in Hin. destruct Hin as [Hin | [Heq Hne]];
      try contradiction.
    destruct Hname as [<- | [<- | [<- | [<- | []]]]];
      cbn in Hgiven; try (vm_compute in Heq; discriminate Heq);
      contradiction.
Qed.

Lemma unset_not_in_body l name :
  In name optional_parameters ->
  given l name = None ->
  ~ In (lit name) (serialized_keys (field (listing_body l) "filter")) /\
  ~ In (lit name) (serialized_keys (listing_body l)).
Proof.
  intros Hname Hgiven.
  destruct l as [params | cur | [[f|] [t|] [c|]] | [[f|] [t|] [c|]]];
    destruct Hname as [<- | [<- | [<- | [<- | []]]]];
    cbn in Hgiven; try discriminate Hgiven;
    split; intros H; cbn in H; refute_membership H.
Qed.

(** C4. For each listing method and each argument: the request it sends is
    the one built from its endpoint and body, and an optional parameter the
    caller left unset names no parameter of the URL's query string and no
    member of the serialized body, neither in [filter] nor next to it; the
    body text is the text of the object holding the given parameters only. *)
Theorem unset_parameters_are_not_sent :
  forall (l : listing) (st : State),
    sent (snd (run_listing l st)) = sent st ++ [listing_request (this st) l] /\
    body (listing_request (this st) l) = JSON_stringify (listing_body_given l) /\
    (forall name,
        In name optional_parameters ->
        given l name = None ->
        ~ In (lit name)
            (query_names (query_of_url (url (listing_request (this st) l)))) /\
        ~ In (lit name) (serialized_keys (field (listing_body l) "filter")) /\
        ~ In (lit name) (serialized_keys (listing_body l))).
Proof.
  intros l st. split; [|split].
  - unfold listing_request.
    destruct l as [params | cur | params | params];
      unfold run_listing, listCalls, listUsers, listDeals, listEmails;
      (rewrite bind_silent_state; [|intros a; auto 10 with effects]);
      now rewrite request_state.
  - destruct l as [params | cur | params | params];
      unfold listing_request, outgoing;
      cbn [body listing_body listing_body_given truthy window_body];
      try reflexivity; apply window_body_text.
  - intros name Hname Hgiven. split.
    + rewrite query_of_listing_url, query_names_toString.
      now apply unset_not_in_query.
    + now apply unset_not_in_body.
Qed.

Lemma unset_parameters_are_not_sent_witness :
  ~ In (lit "fromDateTime")
      (query_names
         (query_of_url
            (url (listing_request sample_client
                    (ListCalls
                       (ListCallsParams.mk None (Some (lit "2024-02-01T00:00:00Z"))
                          None (Some (lit "abc")))))))) /\
  ~ In (lit "fromDateTime")
      (serialized_keys
         (field (listing_body
                   (ListCalls
                      (ListCallsParams.mk None (Some (lit "2024-02-01T00:00:00Z"))
                         None (Some (lit "abc"))))) "filter")) /\
  ~ In (lit "fromDateTime")
      (serialized_keys
         (listing_body
            (ListCalls
               (ListCallsParams.mk None (Some (lit "2024-02-01T00:00:00Z"))
                  None (Some (lit "abc")))))).
Proof.
  apply (proj2 (proj2 (unset_parameters_are_not_sent
           (ListCalls (ListCallsParams.mk None (Some (lit "2024-02-01T00:00:00Z"))
                         None (Some (lit "abc"))))
           (facing (success full_envelope))))
           "fromDateTime"%string).
  - left. reflexivity.
  - reflexivity.
Defined.

(** The example of the specification, computed: the term is dropped, the
    date is percent-encoded into the query. *)
Example searchCalls_renewal :
  let st := facing (success full_envelope) in
  searchCalls
    (SearchCallsParams.mk (Some (lit "renewal"))
       (Some (lit "2024-01-01T00:00:00Z")) None None None) st =
  listCalls
    (ListCallsParams.mk (Some (lit "2024-01-01T00:00:00Z")) None None None) st /\
  map url
    (sent (snd (searchCalls
                  (SearchCallsParams.mk (Some (lit "renewal"))
                     (Some (lit "2024-01-01T00:00:00Z")) None None None) st))) =
  [lit "https://api.gong.io/v2/calls?fromDateTime=2024-01-01T00%3A00%3A00Z"].
Proof. split; reflexivity. Qed.

(** A body with nothing given keeps its (empty) filter and nothing else. *)
Example listDeals_empty_body :
  map body (sent (snd (listDeals WindowParams.empty (facing (success bare_envelope))))) =
  [Some (lit "{" ++ QuoteJSONString (lit "filter") ++ lit ":{}}")].
Proof. reflexivity. Qed.

(** ** Beyond the listed claims: how every method fails and returns *)

Lemma bind_assoc A B C (m : M A) (f : A -> M B) (g : B -> M C) st :
  bind (bind m f) g st = bind m (fun x => bind (f x) g) st.
Proof. unfold bind. destruct (m st) as [[a|e] st']; reflexivity. Qed.

(** Every method is one call of [request] followed by steps that read the
    decoded body and nothing else. *)
Lemma invoke_via_request i :
  exists endpoint method body (k : jsval -> M returned),
    (forall v, silent (k v)) /\
    forall st, invoke i st = bind (request endpoint method body) k st.
Proof.
  destruct i as [[params | cur | params | params] | ids | id | params | ids
                | params | params | ];
    do 4 eexists;
    (split; [|intros st;
              unfold invoke, run_listing, searchCalls, listCalls, listUsers,
                listDeals, listEmails, getCallsExtensive, getTranscript,
                getUsers, getCallsByCrmObject, getUserStats,
                listLibraryFolders, fmap;
              rewrite bind_assoc; reflexivity]);
    intros v; cbv beta; auto 12 with effects.
Qed.

(** X1. Whatever the method and whatever happens to the call (a value
    returned, an error status, a rejected [fetch], a body that does not
    parse), exactly one request is sent and one pending response consumed;
    a session of [n] calls sends [n] requests. *)
Theorem every_call_is_exactly_one_exchange :
  (forall (i : invocation) (st : State),
      exists req,
        sent (snd (invoke i st)) = sent st ++ [req] /\
        pending (snd (invoke i st)) = tl (pending st)) /\
  (forall (calls : list invocation) (st : State),
      List.length (sent (session calls st)) =
      List.length (sent st) + List.length calls).
Proof.
  assert (Hone : forall i st, exists req,
               sent (snd (invoke i st)) = sent st ++ [req] /\
               pending (snd (invoke i st)) = tl (pending st)).
  { intros i st. destruct (invoke_state i st) as (e & m & b & ->).
    eexists. split; reflexivity. }
  split; [exact Hone|].
  induction calls as [|i calls IH]; intros st; simpl.
  - lia.
  - rewrite IH. destruct (Hone i st) as (req & -> & _).
    rewrite List.length_app. simpl. lia.
Qed.

(** X2. No method catches what the transport raises: a rejected [fetch]
    surfaces as that rejection, and a success status with a body that is not
    JSON surfaces as the parser's [SyntaxError], from every method. *)
Theorem transport_failures_surface_unchanged :
  forall (i : invocation) (st : State),
    (forall rest, pending st = Rejects :: rest ->
                  fst (invoke i st) = Throw FetchFailed) /\
    (pending st = [] -> fst (invoke i st) = Throw FetchFailed) /\
    (forall r rest,
        pending st = Responds r :: rest ->
        ok r = true ->
        json r = None ->
        fst (invoke i st) = Throw SyntaxError).
Proof.
  intros i st.
  destruct (invoke_via_request i) as (e & m & b & k & _ & Hrun).
  repeat split; intros; rewrite Hrun; unfold bind;
    rewrite request_unfold; unfold fetch;
    repeat match goal with
           | H : pending st = _ |- _ => rewrite H
           | H : ok _ = _ |- _ => rewrite H
           | H : json _ = _ |- _ => rewrite H
           end; reflexivity.
Qed.

Lemma transport_failures_surface_unchanged_witness :
  fst (invoke ListLibraryFolders
         {| this := sample_client; pending := [Rejects]; sent := [] |}) =
    Throw FetchFailed /\
  fst (invoke ListLibraryFolders
         {| this := sample_client; pending := []; sent := [] |}) =
    Throw FetchFailed /\
  fst (invoke (GetUsers [lit "u1"]) (facing garbled)) = Throw SyntaxError.
Proof.
  split; [|split].
  - apply (proj1 (transport_failures_surface_unchanged ListLibraryFolders
             {| this := sample_client; pending := [Rejects]; sent := [] |}) []).
    reflexivity.
  - apply (proj1 (proj2 (transport_failures_surface_unchanged ListLibraryFolders
             {| this := sample_client; pending := []; sent := [] |}))).
    reflexivity.
  - apply (proj2 (proj2 (transport_failures_surface_unchanged
             (GetUsers [lit "u1"]) (facing garbled))) garbled []);
      reflexivity.
Defined.

(** X3. A method returns a value only if the response it met had a status
    in 200-299 and a body that parsed. *)
Theorem a_value_comes_only_from_a_success_response :
  forall (i : invocation) (st : State) (x : returned),
    fst (invoke i st) = Ok x ->
    exists r rest v,
      pending st = Responds r :: rest /\
      (200 <= status r <= 299)%N /\
      json r = Some v.
Proof.
  intros i st x Hx.
  destruct (invoke_via_request i) as (e & m & b & k & _ & Hrun).
  rewrite Hrun in Hx. unfold bind in Hx. rewrite request_unfold in Hx.
  unfold fetch in Hx.
  destruct (pending st) as [|[r|] rest]; try discriminate Hx.
  destruct (ok r) eqn:Hok; [|discriminate Hx].
  destruct (json r) as [v|] eqn:Hj; [|discriminate Hx].
  unfold ok in Hok. apply andb_prop in Hok. destruct Hok as [Hlo Hhi].
  apply N.leb_le in Hlo. apply N.leb_le in Hhi.
  exists r, rest, v. split; [reflexivity|]. split; [|exact Hj].
  split; assumption.
Qed.

Lemma a_value_comes_only_from_a_success_response_witness :
  exists r rest v,
    pending (facing (success full_envelope)) = Responds r :: rest /\
    (200 <= status r <= 299)%N /\
    json r = Some v.
Proof.
  apply (a_value_comes_only_from_a_success_response
           (GetCallsExtensive [lit "c1"]) (facing (success full_envelope))
           (Value (JArr [JObj [(lit "id", JStr (lit "c1"))]]))).
  reflexivity.
Defined.

(** Run any method up to the point where [request] has returned. *)
Ltac invoke_after_success Hp Hok Hj :=
  unfold invoke, run_listing, searchCalls, listCalls, listUsers, listDeals,
    listEmails, getCallsExtensive, getTranscript, getUsers,
    getCallsByCrmObject, getUserStats, listLibraryFolders, fmap, bind;
  rewrite (request_success _ _ _ _ _ _ _ Hp Hok Hj);
  unfold lift, ret.

(** X4. A success response whose body is [null] makes every method throw a
    [TypeError]: each of them reads a property of the decoded body first,
    and the guards of [listDeals] and [listEmails] come after that read. *)
Theorem null_body_makes_every_method_throw :
  forall (i : invocation) (st : State) (r : Response) rest,
    pending st = Responds r :: rest ->
    ok r = true ->
    json r = Some JNull ->
    fst (invoke i st) = Throw TypeError.
Proof.
  intros i st r rest Hp Hok Hj.
  destruct i as [[params | cur | params | params] | ids | id | params | ids
                | params | params | ];
    invoke_after_success Hp Hok Hj; reflexivity.
Qed.

Lemma null_body_makes_every_method_throw_witness :
  fst (invoke (Listing (ListDeals WindowParams.empty)) (facing null_body)) =
  Throw TypeError.
Proof.
  apply (null_body_makes_every_method_throw
           (Listing (ListDeals WindowParams.empty)) (facing null_body)
           null_body []); reflexivity.
Defined.

(** ** Beyond the listed claims: reading the envelope *)

Lemma get_prop_present props name x :
  own_property props (lit name) = Some x ->
  get_prop (JObj props) name = Ok x.
Proof. simpl. now intros ->. Qed.

(** X5. When the envelope carries the array of the resource, every listing
    method returns it as [records] unchanged, empty or not, in upstream
    order; the two GET methods need the metadata object for that, the two
    POST methods do not. *)
Theorem listing_returns_the_upstream_array_unchanged :
  forall (l : listing) (st : State) (r : Response) rest props items,
    pending st = Responds r :: rest ->
    ok r = true ->
    json r = Some (JObj props) ->
    own_property props (lit (array_field l)) = Some (JArr items) ->
    (listing_method l = GET ->
     exists metadata,
       own_property props (lit "records") = Some metadata /\
       nullish metadata = false) ->
    exists page,
      fst (run_listing l st) = Ok page /\ records page = JArr items.
Proof.
  intros l st r rest props items Hp Hok Hj Harr Hmeta.
  destruct l as [params | cur | params | params]; cbn [array_field] in Harr;
    cbn [listing_method] in Hmeta; after_success Hp Hok Hj;
    rewrite (get_prop_present _ _ _ Harr).
  1, 2: destruct (Hmeta eq_refl) as (m & Hm & Hnn);
    rewrite (get_prop_present _ _ _ Hm);
    destruct (get_prop_not_nullish m "cursor" Hnn) as [c ->];
    destruct (get_prop_not_nullish m "totalRecords" Hnn) as [n ->];
    eexists; split; reflexivity.
  all: destruct (get_prop_not_nullish (JObj props) "records" eq_refl) as [m ->];
    unfold get_prop_opt; destruct (nullish m) eqn:Hm;
    [ eexists; split; reflexivity
    | destruct (get_prop_not_nullish m "cursor" Hm) as [c ->];
      destruct (get_prop_not_nullish m "totalRecords" Hm) as [n ->];
      eexists; split; reflexivity ].
Qed.

Lemma listing_returns_the_upstream_array_unchanged_witness :
  exists page,
    fst (run_listing (ListUsers None) (facing (success full_envelope))) = Ok page /\
    records page = JArr [JObj [(lit "id", JStr (lit "u1"))]].
Proof.
  apply (listing_returns_the_upstream_array_unchanged (ListUsers None)
           (facing (success full_envelope)) (success full_envelope) []
           [(lit "requestId", JStr (lit "r1"));
            (lit "records", sample_metadata);
            (lit "calls", JArr [JObj [(lit "id", JStr (lit "c1"))]]);
            (lit "users", JArr [JObj [(lit "id", JStr (lit "u1"))]]);
            (lit "deals", JArr [JObj [(lit "id", JStr (lit "d1"))]]);
            (lit "emailActivities", JArr [JObj [(lit "id", JStr (lit "e1"))]])]
           [JObj [(lit "id", JStr (lit "u1"))]]);
    try reflexivity.
  intros _. exists sample_metadata. split; reflexivity.
Defined.

(** X6. [listDeals] and [listEmails] put the empty list in place of any
    falsy value of their array field ([null], [false], [0], the empty
    string), not only of a missing one. *)
Theorem deals_and_emails_replace_a_falsy_array_field :
  forall (params : WindowParams.t) (st : State) (r : Response) rest props x,
    pending st = Responds r :: rest ->
    ok r = true ->
    json r = Some (JObj props) ->
    truthy x = false ->
    (own_property props (lit "deals") = Some x ->
     exists page,
       fst (listDeals params st) = Ok page /\ records page = JArr []) /\
    (own_property props (lit "emailActivities") = Some x ->
     exists page,
       fst (listEmails params st) = Ok page /\ records page = JArr []).
Proof.
  intros params st r rest props x Hp Hok Hj Hfalsy.
  split; intros Hx; after_success Hp Hok Hj;
    rewrite (get_prop_present _ _ _ Hx);
    destruct (get_prop_not_nullish (JObj props) "records" eq_refl) as [m ->];
    unfold get_prop_opt, js_or; rewrite Hfalsy; destruct (nullish m) eqn:Hm.
  1, 3: eexists; split; reflexivity.
  all: destruct (get_prop_not_nullish m "cursor" Hm) as [c ->];
    destruct (get_prop_not_nullish m "totalRecords" Hm) as [n ->];
    eexists; split; reflexivity.
Qed.

Lemma deals_and_emails_replace_a_falsy_array_field_witness :
  (exists page,
     fst (listDeals WindowParams.empty
            (facing (success (JObj [(lit "deals", JNull);
                                    (lit "emailActivities", JNull)])))) = Ok page /\
     records page = JArr []) /\
  (exists page,
     fst (listEmails WindowParams.empty
            (facing (success (JObj [(lit "deals", JNull);
                                    (lit "emailActivities", JNull)])))) = Ok page /\
     records page = JArr []).
Proof.
  destruct (deals_and_emails_replace_a_falsy_array_field WindowParams.empty
              (facing (success (JObj [(lit "deals", JNull);
                                      (lit "emailActivities", JNull)])))
              (success (JObj [(lit "deals", JNull);
                              (lit "emailActivities", JNull)])) []
              [(lit "deals", JNull); (lit "emailActivities", JNull)] JNull
              eq_refl eq_refl eq_refl eq_refl) as [Hd He].
  split; [apply Hd | apply He]; reflexivity.
Defined.

(** X7. [getTranscript] returns the first element of [callTranscripts] and
    ignores any further one. *)
Theorem getTranscript_returns_the_first_transcript :
  forall (callId : jsstring) (st : State) (r : Response) rest props first others,
    pending st = Responds r :: rest ->
    ok r = true ->
    json r = Some (JObj props) ->
    own_property props (lit "callTranscripts") = Some (JArr (first :: others)) ->
    fst (getTranscript callId st) = Ok first.
Proof.
  intros callId st r rest props first others Hp Hok Hj Harr.
  after_success Hp Hok Hj. rewrite (get_prop_present _ _ _ Harr). reflexivity.
Qed.

Lemma getTranscript_returns_the_first_transcript_witness :
  fst (getTranscript (lit "call-1")
         (facing (success
            (JObj [(lit "callTranscripts",
                    JArr [JObj [(lit "callId", JStr (lit "call-1"))];
                          JObj [(lit "callId", JStr (lit "call-2"))]])])))) =
  Ok (JObj [(lit "callId", JStr (lit "call-1"))]).
Proof.
  apply (getTranscript_returns_the_first_transcript (lit "call-1")
           (facing (success
              (JObj [(lit "callTranscripts",
                      JArr [JObj [(lit "callId", JStr (lit "call-1"))];
                            JObj [(lit "callId", JStr (lit "call-2"))]])])))
           (success
              (JObj [(lit "callTranscripts",
                      JArr [JObj [(lit "callId", JStr (lit "call-1"))];
                            JObj [(lit "callId", JStr (lit "call-2"))]])]))
           []
           [(lit "callTranscripts",
             JArr [JObj [(lit "callId", JStr (lit "call-1"))];
                   JObj [(lit "callId", JStr (lit "call-2"))]])]
           (JObj [(lit "callId", JStr (lit "call-1"))])
           [JObj [(lit "callId", JStr (lit "call-2"))]]);
    reflexivity.
Defined.

(** X8. [getTranscript] indexes [callTranscripts] unguarded. It throws a
    [TypeError] exactly when the envelope has no such field or holds [null]
    (or [undefined]) there; for every other value of the field it returns
    that value's element 0 and does not throw, so not only an empty array
    but any value without an element 0 gives [undefined]. *)
Theorem getTranscript_throws_exactly_on_a_missing_or_null_field :
  forall (callId : jsstring) (st : State) (r : Response) rest props,
    pending st = Responds r :: rest ->
    ok r = true ->
    json r = Some (JObj props) ->
    (fst (getTranscript callId st) = Throw TypeError <->
     own_property props (lit "callTranscripts") = None \/
     exists x, own_property props (lit "callTranscripts") = Some x /\
               nullish x = true) /\
    (forall x,
        own_property props (lit "callTranscripts") = Some x ->
        nullish x = false ->
        fst (getTranscript callId st) = get_index0 x /\
        exists y, get_index0 x = Ok y) /\
    (forall x,
        own_property props (lit "callTranscripts") = Some x ->
        x = JArr [] \/ x = JObj [] \/ x = JStr [] \/ x = JNum 0 \/
        x = JBool false ->
        fst (getTranscript callId st) = Ok JUndefined).
Proof.
  intros callId st r rest props Hp Hok Hj.
  assert (Hrun : forall x,
             own_property props (lit "callTranscripts") = Some x ->
             fst (getTranscript callId st) = get_index0 x).
  { intros x Hx. after_success Hp Hok Hj.
    rewrite (get_prop_present _ _ _ Hx). destruct (get_index0 x); reflexivity. }
  assert (Hdefined : forall x, nullish x = false -> exists y, get_index0 x = Ok y).
  { intros x Hx. destruct x as [| |b|z|s|items|ps]; try discriminate Hx;
      simpl; eauto.
    - destruct s; eauto.
    - destruct (own_property ps (lit "0")); eauto. }
  split; [split|split].
  - intros Hthrow.
    destruct (own_property props (lit "callTranscripts")) as [x|] eqn:Hx;
      [|now left].
    right. exists x. split; [reflexivity|].
    destruct (nullish x) eqn:Hnull; [reflexivity|].
    destruct (Hdefined x Hnull) as [y Hy].
    rewrite (Hrun x eq_refl), Hy in Hthrow. discriminate Hthrow.
  - intros [Hnone | (x & Hx & Hnull)].
    + after_success Hp Hok Hj. rewrite (get_prop_missing _ _ Hnone). reflexivity.
    + rewrite (Hrun x Hx). destruct x; try discriminate Hnull; reflexivity.
  - intros x Hx Hnull. split; [now apply Hrun | now apply Hdefined].
  - intros x Hx Hcases. rewrite (Hrun x Hx).
    destruct Hcases as [-> | [-> | [-> | [-> | ->]]]]; reflexivity.
Qed.

Lemma getTranscript_throws_exactly_on_a_missing_or_null_field_witness :
  fst (getTranscript (lit "call-1") (facing (success bare_envelope))) =
    Throw TypeError /\
  fst (getTranscript (lit "call-1")
         (facing (success (JObj [(lit "callTranscripts", JObj [])])))) =
    Ok JUndefined.
Proof.
  split.
  - apply (proj1 (getTranscript_throws_exactly_on_a_missing_or_null_field
             (lit "call-1") (facing (success bare_envelope))
             (success bare_envelope) []
             [(lit "requestId", JStr (lit "r1"))] eq_refl eq_refl eq_refl)).
    left. reflexivity.
  - apply (proj2 (proj2 (getTranscript_throws_exactly_on_a_missing_or_null_field
             (lit "call-1")
             (facing (success (JObj [(lit "callTranscripts", JObj [])])))
             (success (JObj [(lit "callTranscripts", JObj [])])) []
             [(lit "callTranscripts", JObj [])] eq_refl eq_refl eq_refl))
             (JObj [])).
    + reflexivity.
    + right. left. reflexivity.
Defined.

(** X9. [listCalls] and [listUsers] read the metadata object unguarded: an
    envelope without [records], or with [null] there, makes them throw a
    [TypeError], whatever else the envelope holds. *)
Theorem calls_and_users_throw_without_metadata :
  forall (l : listing) (st : State) (r : Response) rest props,
    listing_method l = GET ->
    pending st = Responds r :: rest ->
    ok r = true ->
    json r = Some (JObj props) ->
    own_property props (lit "records") = None \/
    own_property props (lit "records") = Some JNull ->
    fst (run_listing l st) = Throw TypeError.
Proof.
  intros l st r rest props Hget Hp Hok Hj Hmeta.
  destruct l as [params | cur | params | params]; try discriminate Hget;
    after_success Hp Hok Hj;
    [ destruct (get_prop_not_nullish (JObj props) "calls" eq_refl) as [a ->]
    | destruct (get_prop_not_nullish (JObj props) "users" eq_refl) as [a ->] ];
    destruct Hmeta as [Hnone | Hnull];
    try rewrite (get_prop_missing _ _ Hnone);
    try rewrite (get_prop_present _ _ _ Hnull);
    reflexivity.
Qed.

Lemma calls_and_users_throw_without_metadata_witness :
  fst (run_listing (ListUsers (Some (lit "abc")))
         (facing (success envelope_without_metadata))) = Throw TypeError.
Proof.
  apply (calls_and_users_throw_without_metadata (ListUsers (Some (lit "abc")))
           (facing (success envelope_without_metadata))
           (success envelope_without_metadata) []
           [(lit "requestId", JStr (lit "r1")); (lit "calls", JArr []);
            (lit "users", JArr []); (lit "deals", JArr []);
            (lit "emailActivities", JArr [])]);
    try reflexivity.
  left. reflexivity.
Defined.

(** ** Beyond the listed claims: what is written on the wire *)

Lemma after_app sep p rest :
  free_of sep p -> after sep (p ++ sep :: rest) = rest.
Proof.
  induction 1 as [|c p Hc Hp IH]; simpl.
  - now rewrite N.eqb_refl.
  - apply N.eqb_neq in Hc. now rewrite Hc.
Qed.

Lemma form_pair_value kv :
  after equals_sign (form_pair kv) = form_encode (snd kv).
Proof.
  unfold form_pair. change (lit "=") with [equals_sign]. simpl.
  apply after_app. apply form_encode_free. now right.
Qed.

Lemma query_pairs_toString (q : URLSearchParams) :
  query_pairs (URLSearchParams_toString q) =
  map (fun kv => (form_encode (fst kv), form_encode (snd kv))) q.
Proof.
  assert (Hpairs : forall l : URLSearchParams,
             map (fun piece => (before equals_sign piece, after equals_sign piece))
               (filter nonempty (map form_pair l)) =
             map (fun kv => (form_encode (fst kv), form_encode (snd kv))) l).
  { induction l as [|x l IH]; simpl; [reflexivity|].
    rewrite form_pair_nonempty. simpl.
    now rewrite form_pair_name, form_pair_value, IH. }
  unfold query_pairs, URLSearchParams_toString.
  destruct q as [|kv q]; [reflexivity|].
  rewrite <- Hpairs. cbn [map join]. rewrite split_on_join.
  - reflexivity.
  - change (form_pair kv :: map form_pair q) with (map form_pair (kv :: q)).
    apply Forall_forall. intros x Hx. apply in_map_iff in Hx.
    destruct Hx as (y & <- & _). apply form_pair_free.
Qed.

(** X10. The query string of [listCalls] and [listUsers] carries exactly
    the parameters given with a non-empty value, each once, in the order
    fromDateTime, toDateTime, workspaceId, cursor, the value
    percent-encoded: an empty string counts as unset, and no value, whatever
    characters it holds, adds or renames a parameter. *)
Theorem get_query_is_exactly_the_nonempty_parameters :
  forall (self : GongClient) (l : listing),
    listing_method l = GET ->
    query_pairs (query_of_url (url (listing_request self l))) =
    map (fun nv => (lit (fst nv), form_encode (snd nv))) (given_nonempty l).
Proof.
  intros self l Hget.
  rewrite query_of_listing_url, query_pairs_toString.
  destruct l as [params | cur | params | params]; try discriminate Hget.
  - destruct params as [[[|f fs]|] [[|t ts]|] [[|w ws]|] [[|c cs]|]];
      reflexivity.
  - destruct cur as [[|c cs]|]; reflexivity.
Qed.

Lemma get_query_is_exactly_the_nonempty_parameters_witness :
  query_pairs
    (query_of_url
       (url (listing_request sample_client
               (ListCalls
                  (ListCallsParams.mk (Some (lit "")) (Some (lit "2024-02-01"))
                     None (Some (lit "a&workspaceId=1"))))))) =
  [(lit "toDateTime", lit "2024-02-01");
   (lit "cursor", lit "a%26workspaceId%3D1")].
Proof.
  apply (get_query_is_exactly_the_nonempty_parameters sample_client
           (ListCalls
              (ListCallsParams.mk (Some (lit "")) (Some (lit "2024-02-01"))
                 None (Some (lit "a&workspaceId=1"))))).
  reflexivity.
Defined.

(** X11. The body of [listDeals] and [listEmails] has a [filter] member
    always, a [cursor] member exactly when a cursor was given, and inside
    [filter] exactly the dates that were given; unlike the GET methods, a
    parameter given as the empty string is written out. *)
Theorem window_body_members_are_exactly_the_given_ones :
  forall (l : listing) (st : State),
    listing_method l = POST ->
    sent (snd (run_listing l st)) = sent st ++ [listing_request (this st) l] /\
    (exists text, body (listing_request (this st) l) = Some text) /\
    serialized_keys (listing_body l) =
      lit "filter" :: key_if "cursor" (given l "cursor") /\
    serialized_keys (field (listing_body l) "filter") =
      key_if "fromDateTime" (given l "fromDateTime")
      ++ key_if "toDateTime" (given l "toDateTime").
Proof.
  intros l st Hpost.
  destruct l as [params | cur | params | params]; try discriminate Hpost;
    (split;
     [ unfold listing_request, run_listing, listDeals, listEmails;
       (rewrite bind_silent_state; [|intros a; auto 10 with effects]);
       now rewrite request_state
     | split;
       [ eexists; unfold listing_request, outgoing;
         cbn [body listing_body truthy window_body]; reflexivity
       | destruct params as [[f|] [t|] [c|]]; split; reflexivity ] ]).
Qed.

Lemma window_body_members_are_exactly_the_given_ones_witness :
  serialized_keys
    (listing_body (ListDeals (WindowParams.mk (Some (lit "")) None None))) =
    [lit "filter"] /\
  serialized_keys
    (field (listing_body (ListDeals (WindowParams.mk (Some (lit "")) None None)))
       "filter") = [lit "fromDateTime"].
Proof.
  apply (proj2 (proj2 (window_body_members_are_exactly_the_given_ones
           (ListDeals (WindowParams.mk (Some (lit "")) None None))
           (facing (success bare_envelope)) eq_refl))).
Defined.

Lemma lookup_request_sent endpoint body (k : jsval -> M jsval) st :
  (forall v, silent (k v)) ->
  sent (snd (bind (request endpoint POST body) k st)) =
  sent st ++ [outgoing (this st) endpoint POST body].
Proof.
  intros Hk. rewrite bind_silent_state by exact Hk. now rewrite request_state.
Qed.

(** X12. [getCallsByCrmObject] posts to /crm/object/calls a filter that
    always has [objectType] and [objectIds] and has [fromDateTime] and
    [toDateTime] exactly when they were given; [getUserStats] posts to
    /stats/activity/aggregate a filter that always has [fromDate] and
    [toDate] and has [userIds] exactly when it was given. *)
Theorem crm_and_stats_filters_omit_what_was_not_given :
  (forall (params : CrmParams.t) (st : State),
      sent (snd (getCallsByCrmObject params st)) =
        sent st ++ [outgoing (this st) (lit "/crm/object/calls") POST
                      (getCallsByCrmObject_body params)] /\
      serialized_keys (field (getCallsByCrmObject_body params) "filter") =
        [lit "objectType"; lit "objectIds"]
        ++ key_if "fromDateTime" (CrmParams.fromDateTime params)
        ++ key_if "toDateTime" (CrmParams.toDateTime params)) /\
  (forall (params : StatsParams.t) (st : State),
      sent (snd (getUserStats params st)) =
        sent st ++ [outgoing (this st) (lit "/stats/activity/aggregate") POST
                      (getUserStats_body params)] /\
      serialized_keys (field (getUserStats_body params) "filter") =
        [lit "fromDate"; lit "toDate"]
        ++ key_if "userIds" (StatsParams.userIds params)).
Proof.
  split; intros params st; split.
  - unfold getCallsByCrmObject. apply lookup_request_sent.
    intros v. auto with effects.
  - destruct params as [o ids [f|] [t|]]; reflexivity.
  - unfold getUserStats. apply lookup_request_sent.
    intros v. auto with effects.
  - destruct params as [f t [ids|]]; reflexivity.
Qed.

(** The text of an array of strings: the quoted strings, in order, between
    brackets. *)
Lemma str_array_text ids :
  SerializeJSONProperty (str_array ids) =
  Some (lit "[" ++ join (lit ",") (map QuoteJSONString ids) ++ lit "]").
Proof.
  unfold str_array. cbn [SerializeJSONProperty]. do 4 f_equal.
  induction ids as [|x ids IH]; [reflexivity|].
  cbn [map SerializeJSONProperty]. now rewrite IH.
Qed.

(** X13. [getCallsExtensive] and [getUsers] send the identifiers they are
    given as a JSON array of strings in the order given, for any list, the
    empty one included (no call is skipped: the request is sent all the
    same); the content selector of [getCallsExtensive] is the same text
    whatever the identifiers. *)
Theorem id_lookups_send_the_ids_in_order :
  forall (ids : list jsstring) (st : State),
    sent (snd (getUsers ids st)) =
      sent st ++ [outgoing (this st) (lit "/users/extensive") POST
                    (getUsers_body ids)] /\
    JSON_stringify (getUsers_body ids) =
      Some (lit "{" ++ QuoteJSONString (lit "filter") ++ lit ":{"
              ++ QuoteJSONString (lit "userIds") ++ lit ":["
              ++ join (lit ",") (map QuoteJSONString ids) ++ lit "]}}") /\
    sent (snd (getCallsExtensive ids st)) =
      sent st ++ [outgoing (this st) (lit "/calls/extensive") POST
                    (getCallsExtensive_body ids)] /\
    (exists selector,
        JSON_stringify contentSelector = Some selector /\
        JSON_stringify (getCallsExtensive_body ids) =
          Some (lit "{" ++ QuoteJSONString (lit "filter") ++ lit ":{"
                  ++ QuoteJSONString (lit "callIds") ++ lit ":["
                  ++ join (lit ",") (map QuoteJSONString ids) ++ lit "]},"
                  ++ QuoteJSONString (lit "contentSelector") ++ lit ":"
                  ++ selector ++ lit "}")).
Proof.
  intros ids st. split; [|split; [|split]].
  - unfold getUsers. apply lookup_request_sent. intros v. auto with effects.
  - unfold JSON_stringify, getUsers_body.
    cbn [SerializeJSONProperty]. rewrite str_array_text.
    cbn [join flat_map]. rewrite !app_nil_r.
    repeat (rewrite <- ?app_assoc; cbn [app]). reflexivity.
  - unfold getCallsExtensive. apply lookup_request_sent.
    intros v. auto with effects.
  - destruct (JSON_stringify contentSelector) as [selector|] eqn:Hsel;
      [|discriminate Hsel].
    exists selector. split; [reflexivity|].
    unfold JSON_stringify, getCallsExtensive_body in *.
    cbn [SerializeJSONProperty]. rewrite str_array_text.
    cbn [SerializeJSONProperty] in Hsel. cbn [SerializeJSONProperty].
    injection Hsel as <-.
    cbn [join flat_map]. rewrite !app_nil_r.
    repeat (rewrite <- ?app_assoc; cbn [app]). reflexivity.
Qed.

Lemma prefix_b_app p s : prefix_b p (p ++ s) = true.
Proof.
  induction p as [|c p IH]; simpl; [reflexivity|].
  now rewrite N.eqb_refl.
Qed.

Lemma invoke_request_well_shaped i st :
  exists req,
    snd (invoke i st) =
      mkState (this st) (tl (pending st)) (sent st ++ [req]) /\
    well_shaped (this st) req.
Proof.
  destruct i as [[params | cur | params | params] | ids | id | params | ids
                | params | params | ];
    eexists;
    (split;
     [ unfold invoke, run_listing, searchCalls, listCalls, listUsers, listDeals,
         listEmails, getCallsExtensive, getTranscript, getUsers,
         getCallsByCrmObject, getUserStats, listLibraryFolders, fmap;
       (rewrite bind_silent_state; [|intros a; auto with effects]);
       (rewrite bind_silent_state; [|intros a; auto 10 with effects]);
       apply request_state
     | unfold well_shaped, outgoing; cbn [url headers method body truthy];
       split; [apply prefix_b_app|];
       split; [reflexivity|];
       split; intros H; try discriminate H; reflexivity ]).
Qed.

(** X14. Every request of every call goes to a URL under the API base,
    carries exactly the Authorization and Content-Type headers, and has a
    body if and only if it is a POST: no GET ever carries a body and no POST
    ever lacks one. *)
Theorem every_request_is_well_shaped :
  forall (self : GongClient) (calls : list invocation) script,
    Forall (well_shaped self)
      (sent (session calls {| this := self; pending := script; sent := [] |})).
Proof.
  intros self calls script.
  assert (Hgen : forall st,
             this st = self ->
             Forall (well_shaped self) (sent st) ->
             Forall (well_shaped self) (sent (session calls st))).
  { induction calls as [|i calls IH]; intros st Hself Hsent; simpl.
    - exact Hsent.
    - destruct (invoke_request_well_shaped i st) as (req & Hst & Hreq).
      apply IH; rewrite Hst; simpl.
      + exact Hself.
      + apply Forall_app. split; [exact Hsent|].
        constructor; [|constructor]. now rewrite <- Hself. }
  apply Hgen; [reflexivity | constructor].
Qed.

Lemma reads_no_state_ret A (a : A) : reads_no_state (ret a).
Proof. intros st st'; reflexivity. Qed.

Lemma reads_no_state_lift A (r : result A) : reads_no_state (lift r).
Proof. intros st st'; reflexivity. Qed.

Lemma reads_no_state_bind A B (m : M A) (k : A -> M B) :
  reads_no_state m -> (forall a, reads_no_state (k a)) ->
  reads_no_state (bind m k).
Proof.
  intros Hm Hk st st'. unfold bind. specialize (Hm st st').
  destruct (m st) as [[a|e] st1], (m st') as [[a'|e'] st1']; simpl in Hm;
    try discriminate Hm.
  - injection Hm as <-. apply Hk.
  - simpl. injection Hm as <-. reflexivity.
Qed.

#[local] Hint Resolve reads_no_state_ret reads_no_state_lift
  reads_no_state_bind : effects.

Lemma invoke_reads_after_request i :
  exists endpoint method body (k : jsval -> M returned),
    (forall v, reads_no_state (k v)) /\
    forall st, invoke i st = bind (request endpoint method body) k st.
Proof.
  destruct i as [[params | cur | params | params] | ids | id | params | ids
                | params | params | ];
    do 4 eexists;
    (split; [|intros st;
              unfold invoke, run_listing, searchCalls, listCalls, listUsers,
                listDeals, listEmails, getCallsExtensive, getTranscript,
                getUsers, getCallsByCrmObject, getUserStats,
                listLibraryFolders, fmap;
              rewrite bind_assoc; reflexivity]);
    intros v; cbv beta; auto 12 with effects.
Qed.

(** X15. What a call returns or throws depends on the response it meets and
    on nothing else: not on the client's credentials, not on the requests
    sent before, not on the responses still waiting behind the first. *)
Theorem outcome_depends_only_on_the_response_met :
  forall (i : invocation) (st st' : State),
    hd_error (pending st) = hd_error (pending st') ->
    fst (invoke i st) = fst (invoke i st').
Proof.
  intros i st st' Hhd.
  destruct (invoke_reads_after_request i) as (e & m & b & k & Hk & Hrun).
  rewrite !Hrun. unfold bind. rewrite !request_unfold. unfold fetch.
  destruct (pending st) as [|[r|] rest], (pending st') as [|[r'|] rest'];
    simpl in Hhd; try discriminate Hhd; try reflexivity.
  injection Hhd as <-.
  destruct (negb (ok r)); [reflexivity|].
  destruct (json r) as [v|]; [|reflexivity].
  apply Hk.
Qed.

Lemma outcome_depends_only_on_the_response_met_witness :
  fst (invoke (GetTranscript (lit "call-1")) (facing (success bare_envelope))) =
  fst (invoke (GetTranscript (lit "call-1"))
         {| this := {| authHeader := lit "Basic other" |};
            pending := [Responds (success bare_envelope); Responds rate_limited];
            sent := [outgoing sample_client (lit "/users") GET JUndefined] |}).
Proof.
  apply (outcome_depends_only_on_the_response_met
           (GetTranscript (lit "call-1")) (facing (success bare_envelope))
           {| this := {| authHeader := lit "Basic other" |};
              pending := [Responds (success bare_envelope); Responds rate_limited];
              sent := [outgoing sample_client (lit "/users") GET JUndefined] |}).
  reflexivity.
Defined.

(** ** Beyond the listed claims: the credential *)

Ltac Zify.zify_post_hook ::= Z.to_euclidean_division_equations.

Lemma lor_lt_pow2 a b n : (a < 2 ^ n)%N -> (b < 2 ^ n)%N -> (N.lor a b < 2 ^ n)%N.
Proof.
  intros Ha Hb.
  destruct (N.eq_dec a 0) as [-> | Ha0]; [now rewrite N.lor_0_l|].
  destruct (N.eq_dec b 0) as [-> | Hb0]; [now rewrite N.lor_0_r|].
  apply N.log2_lt_pow2.
  - destruct (N.eq_dec (N.lor a b) 0) as [H0 | H0]; [|lia].
    apply N.lor_eq_0_iff in H0. lia.
  - rewrite N.log2_lor. apply N.max_lub_lt; apply N.log2_lt_pow2; lia.
Qed.

Lemma lor_byte a b : (a < 256)%N -> (b < 256)%N -> (N.lor a b < 256)%N.
Proof. apply (lor_lt_pow2 a b 8). Qed.

Lemma utf8_of_code_point_bytes cp :
  (cp < 0x110000)%N -> Forall (fun b => b < 256)%N (utf8_of_code_point cp).
Proof.
  intros Hcp. unfold utf8_of_code_point.
  change 0x3F%N with (N.ones 6).
  rewrite !N.shiftr_div_pow2, !N.land_ones.
  change (2 ^ 6)%N with 64%N. change (2 ^ 12)%N with 4096%N.
  change (2 ^ 18)%N with 262144%N.
  destruct (cp <? 0x80)%N eqn:H1; [apply N.ltb_lt in H1|apply N.ltb_ge in H1].
  { repeat constructor. lia. }
  destruct (cp <? 0x800)%N eqn:H2; [apply N.ltb_lt in H2|apply N.ltb_ge in H2].
  { repeat constructor; apply lor_byte; lia. }
  destruct (cp <? 0x10000)%N eqn:H3; [apply N.ltb_lt in H3|apply N.ltb_ge in H3].
  { repeat constructor; apply lor_byte; lia. }
  repeat constructor; apply lor_byte; lia.
Qed.

Lemma utf8_encode_bytes s :
  Forall code_unit s -> Forall (fun b => b < 256)%N (utf8_encode s).
Proof.
  assert (Hrep : Forall (fun b => b < 256)%N
                   (utf8_of_code_point replacement_character)).
  { apply utf8_of_code_point_bytes. reflexivity. }
  assert (Hgen : forall n s, (List.length s <= n)%nat -> Forall code_unit s ->
                             Forall (fun b => b < 256)%N (utf8_encode s)).
  { induction n as [|n IH]; intros [|u t] Hlen Hs; simpl in Hlen;
      try (constructor; fail); try lia.
    inversion Hs as [|? ? Hu Ht]; subst. cbn [utf8_encode].
    destruct (is_high u) eqn:Hhigh.
    - destruct t as [|v r]; [exact Hrep|].
      destruct (is_low v) eqn:Hlow.
      + apply Forall_app. split.
        * apply utf8_of_code_point_bytes.
          unfold is_high in Hhigh. unfold is_low in Hlow.
          apply andb_prop in Hhigh. apply andb_prop in Hlow.
          destruct Hhigh as [H1 H2], Hlow as [H3 H4].
          apply N.leb_le in H1, H2, H3, H4.
          rewrite N.shiftl_mul_pow2. change (2 ^ 10)%N with 1024%N. lia.
        * apply IH; [simpl in Hlen; lia | now inversion Ht].
      + apply Forall_app. split; [exact Hrep|].
        apply IH; [simpl in *; lia | exact Ht].
    - destruct (is_low u).
      + apply Forall_app. split; [exact Hrep|]. apply IH; [lia | exact Ht].
      + apply Forall_app. split.
        * apply utf8_of_code_point_bytes. unfold code_unit in Hu. lia.
        * apply IH; [lia | exact Ht]. }
  intros Hs. apply (Hgen (List.length s) s); [lia | exact Hs].
Qed.

Lemma utf8_encode_nonempty s : s <> [] -> utf8_encode s <> [].
Proof.
  assert (Hcp : forall cp rest, utf8_of_code_point cp ++ rest <> []).
  { intros cp rest. unfold utf8_of_code_point.
    destruct (cp <? 0x80)%N; [discriminate|].
    destruct (cp <? 0x800)%N; [discriminate|].
    destruct (cp <? 0x10000)%N; discriminate. }
  destruct s as [|u t]; [congruence|]. intros _. cbn [utf8_encode].
  destruct (is_high u).
  - destruct t as [|v r]; [rewrite <- (app_nil_r (utf8_of_code_point _)); apply Hcp|].
    destruct (is_low v); apply Hcp.
  - destruct (is_low u); apply Hcp.
Qed.

Lemma base64_digit_in_alphabet i :
  (i < 64)%N -> base64_character (base64_digit i) = true.
Proof.
  intros Hi.
  assert (Hall : forallb (fun n => base64_character (base64_digit (N.of_nat n)))
                   (seq 0 64) = true) by (vm_compute; reflexivity).
  rewrite forallb_forall in Hall.
  specialize (Hall (N.to_nat i)). rewrite N2Nat.id in Hall.
  apply Hall. apply in_seq. lia.
Qed.

Lemma base64_characters bytes :
  Forall (fun b => b < 256)%N bytes ->
  forallb base64_character (base64 bytes) = true.
Proof.
  assert (Hgen : forall n bytes, (List.length bytes <= n)%nat ->
                                 Forall (fun b => b < 256)%N bytes ->
                                 forallb base64_character (base64 bytes) = true).
  { induction n as [|n IH]; intros bs Hlen Hbs.
    - destruct bs; [reflexivity | simpl in Hlen; lia].
    - destruct bs as [|a [|b [|c rest]]]; [reflexivity | | |].
      + inversion Hbs as [|? ? Ha _]; subst. cbn [base64 forallb].
        change 3%N with (N.ones 2).
        rewrite N.shiftr_div_pow2, N.shiftl_mul_pow2, N.land_ones.
        change (2 ^ 2)%N with 4%N. change (2 ^ 4)%N with 16%N.
        rewrite !base64_digit_in_alphabet by lia. reflexivity.
      + inversion Hbs as [|? ? Ha Hbs']; subst.
        inversion Hbs' as [|? ? Hb _]; subst. cbn [base64 forallb].
        change 3%N with (N.ones 2). change 15%N with (N.ones 4).
        rewrite !N.shiftr_div_pow2, !N.shiftl_mul_pow2, !N.land_ones.
        change (2 ^ 2)%N with 4%N. change (2 ^ 4)%N with 16%N.
        rewrite !base64_digit_in_alphabet;
          try (apply (lor_lt_pow2 _ _ 6); change (2 ^ 6)%N with 64%N); try lia.
        all: reflexivity.
      + inversion Hbs as [|? ? Ha Hbs']; subst.
        inversion Hbs' as [|? ? Hb Hbs'']; subst.
        inversion Hbs'' as [|? ? Hc Hrest]; subst.
        cbn [base64]. rewrite forallb_app. apply andb_true_intro. split.
        * cbn [forallb].
          change 3%N with (N.ones 2). change 15%N with (N.ones 4).
          change 63%N with (N.ones 6).
          rewrite !N.shiftr_div_pow2, !N.shiftl_mul_pow2, !N.land_ones.
          change (2 ^ 2)%N with 4%N. change (2 ^ 4)%N with 16%N.
          change (2 ^ 6)%N with 64%N.
          rewrite !base64_digit_in_alphabet;
            try (apply (lor_lt_pow2 _ _ 6); change (2 ^ 6)%N with 64%N); try lia.
          all: reflexivity.
        * apply IH; [simpl in Hlen; lia | exact Hrest]. }
  intros Hbs. apply (Hgen (List.length bytes) bytes); [lia | exact Hbs].
Qed.

Lemma base64_length bytes :
  List.length (base64 bytes) = (4 * ((List.length bytes + 2) / 3))%nat.
Proof.
  assert (Hgen : forall n bytes, (List.length bytes <= n)%nat ->
             List.length (base64 bytes) = (4 * ((List.length bytes + 2) / 3))%nat).
  { induction n as [|n IH]; intros bs Hlen.
    - destruct bs; [reflexivity | simpl in Hlen; lia].
    - destruct bs as [|a [|b [|c rest]]]; try reflexivity.
      cbn [base64]. rewrite List.length_app. rewrite IH by (simpl in Hlen; lia).
      cbn [List.length].
      replace (S (S (S (List.length rest))) + 2)%nat
        with ((List.length rest + 2) + 1 * 3)%nat by lia.
      rewrite Nat.div_add by discriminate. lia. }
  apply (Hgen (List.length bytes)). lia.
Qed.

(** X16. Whatever the access key and the secret hold (control characters,
    a colon, characters outside ASCII), the header the constructor stores is
    ["Basic "] followed by a non-empty text made of base64 characters only,
    whose length is a multiple of four. *)
Theorem authorization_header_is_base64_text :
  forall config : GongConfig,
    Forall code_unit (accessKey config) ->
    Forall code_unit (accessKeySecret config) ->
    exists credentials,
      authHeader (constructor config) = lit "Basic " ++ credentials /\
      forallb base64_character credentials = true /\
      exists n, (0 < n)%nat /\ List.length credentials = (4 * n)%nat.
Proof.
  intros config Hkey Hsecret.
  set (plain := accessKey config ++ lit ":" ++ accessKeySecret config).
  exists (base64 (utf8_encode plain)). split; [reflexivity|]. split.
  - apply base64_characters. apply utf8_encode_bytes.
    unfold plain. apply Forall_app. split; [exact Hkey|].
    apply Forall_app. split; [|exact Hsecret].
    repeat constructor.
  - exists ((List.length (utf8_encode plain) + 2) / 3)%nat.
    split; [|apply base64_length].
    assert (Hne : utf8_encode plain <> []).
    { apply utf8_encode_nonempty. unfold plain.
      destruct (accessKey config); discriminate. }
    destruct (utf8_encode plain) as [|b bs]; [congruence|].
    cbn [List.length].
    replace (S (List.length bs) + 2)%nat
      with (List.length bs + 1 * 3)%nat by lia.
    rewrite Nat.div_add by discriminate. lia.
Qed.

Lemma authorization_header_is_base64_text_witness :
  exists credentials,
    authHeader
      (constructor {| accessKey := [0x0A; 0xD83D; 0xDE00; 0xDC00]%N;
                      accessKeySecret := lit "p:w" |}) =
      lit "Basic " ++ credentials /\
    forallb base64_character credentials = true /\
    exists n, (0 < n)%nat /\ List.length credentials = (4 * n)%nat.
Proof.
  apply (authorization_header_is_base64_text
           {| accessKey := [0x0A; 0xD83D; 0xDE00; 0xDC00]%N;
              accessKeySecret := lit "p:w" |});
    repeat constructor.
Defined.
